(** * olscraper: the stat extractor, the loaders and the driver

    A shallow embedding of [olscraper.py].  The program is Python; the
    values it handles are the results of [json.loads] and the rows of
    [csv.DictReader].  Python exceptions are modelled by an error monad,
    so that "raises" and "returns" are both results one can compute.

    Conventions of the model:
    - a Python [str] is a [string] whose characters are code points
      below 256;
    - a Python [int] is a [Z]; the interpreter's optional limit on the
      length of integer/text conversions is not modelled;
    - a Python [float] read from JSON is kept as what this program can
      observe of it (its truth value, its truncation, its text), see
      [pyfloat]; the float that the program itself computes
      ([total / 100]) is modelled exactly, see [true_div_100]. *)

From Stdlib Require Import ZArith List String Ascii Bool Lia.
From Stdlib Require Import DecimalString.
From Stdlib Require Import Sorted Permutation.
Import ListNotations.
Open Scope string_scope.
Open Scope Z_scope.
Set Warnings "-register-all".

(** ** Exceptions and the error monad *)

Inductive exn : Type :=
| AttributeError
| TypeError
| IndexError
| KeyError
| ValueError
| OverflowError.

Inductive result (A : Type) : Type :=
| Ok (a : A)
| Raise (e : exn).
Arguments Ok {A} a.
Arguments Raise {A} e.

Definition bind {A B : Type} (r : result A) (k : A -> result B) : result B :=
  match r with
  | Ok a => k a
  | Raise e => Raise e
  end.

Notation "x <- c ;; k" := (bind c (fun x => k))
  (at level 61, c at next level, right associativity).

Definition fmap {A B : Type} (f : A -> B) (r : result A) : result B :=
  x <- r ;; Ok (f x).

Notation "f <$> r" := (fmap f r) (at level 62, left associativity).

Definition raises {A : Type} (r : result A) : Prop :=
  exists e, r = Raise e.

(** [for x in xs: body], threading the loop's state and stopping at the
    first exception. *)
Fixpoint for_each {A S : Type} (xs : list A) (body : S -> A -> result S)
  (st : S) : result S :=
  match xs with
  | [] => Ok st
  | x :: xs' => st' <- body st x ;; for_each xs' body st'
  end.

(** ** Python values *)

(** A float as the program can observe it: [bool(f)], [int(f)] (absent
    when [int] raises, for nan and the infinities) and [str(f)]. *)
Record pyfloat : Type := {
  f_truth : bool;
  f_trunc : option Z;
  f_text : string
}.

(** The values [json.loads] produces; a dict keeps its items in
    insertion order, with pairwise distinct keys. *)
Inductive json : Type :=
| JNull
| JBool (b : bool)
| JInt (z : Z)
| JFloat (f : pyfloat)
| JStr (s : string)
| JList (l : list json)
| JDict (m : list (string * json)).

(** [bool(v)]. *)
Definition truthy (v : json) : bool :=
  match v with
  | JNull => false
  | JBool b => b
  | JInt z => negb (z =? 0)
  | JFloat f => f_truth f
  | JStr s => negb (String.eqb s "")
  | JList l => match l with [] => false | _ => true end
  | JDict m => match m with [] => false | _ => true end
  end.

Fixpoint assoc {V : Type} (k : string) (m : list (string * V)) : option V :=
  match m with
  | [] => None
  | (k', v) :: m' => if String.eqb k k' then Some v else assoc k m'
  end.

(** The value of a dict under [k], or [default]. *)
Definition item (m : list (string * json)) (k : string) (default : json) : json :=
  match assoc k m with
  | Some x => x
  | None => default
  end.

(** [v.get(k, default)]: only a dict has the method. *)
Definition py_get (v : json) (k : string) (default : json) : result json :=
  match v with
  | JDict m => Ok (item m k default)
  | _ => Raise AttributeError
  end.

Definition chars (s : string) : list json :=
  map (fun c => JStr (String c EmptyString)) (list_ascii_of_string s).

(** The items a [for] loop over [v] visits: the elements of a list, the
    keys of a dict, the characters of a str. *)
Definition py_iter (v : json) : result (list json) :=
  match v with
  | JList l => Ok l
  | JDict m => Ok (map (fun kv => JStr (fst kv)) m)
  | JStr s => Ok (chars s)
  | _ => Raise TypeError
  end.

(** [v[0]]. The keys of a dict read from JSON are strings, so the key
    [0] is never present. *)
Definition py_index0 (v : json) : result json :=
  match v with
  | JList (x :: _) => Ok x
  | JList [] => Raise IndexError
  | JStr (String c _) => Ok (JStr (String c EmptyString))
  | JStr EmptyString => Raise IndexError
  | JDict _ => Raise KeyError
  | _ => Raise TypeError
  end.

(** [hash(v)] is defined: lists and dicts cannot be dict keys. *)
Definition hashable (v : json) : bool :=
  match v with
  | JList _ | JDict _ => false
  | _ => true
  end.

(** ** [str] and [repr] *)

Definition str_of_int (z : Z) : string :=
  NilZero.string_of_int (Z.to_int z).

Definition code (c : ascii) : Z := Z.of_N (N_of_ascii c).

Definition chr (n : Z) : ascii := ascii_of_N (Z.to_N n).

Definition quote1 : ascii := chr 39.
Definition quote2 : ascii := chr 34.
Definition backslash : ascii := chr 92.

Definition hex_digit (n : Z) : ascii :=
  if n <? 10 then chr (48 + n) else chr (87 + n).

(** [str.isprintable] on the code points below 256. *)
Definition printable (c : ascii) : bool :=
  let n := code c in
  ((32 <=? n) && (n <? 127)) || ((161 <=? n) && negb (n =? 173)).

Definition str1 (c : ascii) : string := String c EmptyString.

Definition escape (q c : ascii) : string :=
  let n := code c in
  if Ascii.eqb c backslash then String backslash (str1 backslash)
  else if Ascii.eqb c q then String backslash (str1 q)
  else if n =? 9 then String backslash "t"
  else if n =? 10 then String backslash "n"
  else if n =? 13 then String backslash "r"
  else if printable c then str1 c
  else String backslash (String "x" (String (hex_digit (n / 16)) (str1 (hex_digit (n mod 16))))).

Fixpoint contains (q : ascii) (s : string) : bool :=
  match s with
  | EmptyString => false
  | String c s' => Ascii.eqb c q || contains q s'
  end.

Fixpoint escape_all (q : ascii) (s : string) : string :=
  match s with
  | EmptyString => EmptyString
  | String c s' => escape q c ++ escape_all q s'
  end.

(** [repr(s)] for a str: single quotes unless the text has a single
    quote and no double quote. *)
Definition repr_str (s : string) : string :=
  let q := if contains quote1 s && negb (contains quote2 s) then quote2 else quote1 in
  String q (escape_all q s ++ str1 q).

Fixpoint join (sep : string) (l : list string) : string :=
  match l with
  | [] => EmptyString
  | [x] => x
  | x :: l' => x ++ sep ++ join sep l'
  end.

Fixpoint py_repr (v : json) : string :=
  match v with
  | JNull => "None"
  | JBool true => "True"
  | JBool false => "False"
  | JInt z => str_of_int z
  | JFloat f => f_text f
  | JStr s => repr_str s
  | JList l => "[" ++ join ", " (map py_repr l) ++ "]"
  | JDict m =>
      "{" ++ join ", " (map (fun '(k, x) => repr_str k ++ ": " ++ py_repr x) m) ++ "}"
  end.

(** [str(v)]. *)
Definition py_str (v : json) : string :=
  match v with
  | JStr s => s
  | _ => py_repr v
  end.

(** ** [int] *)

(** The characters [int] skips around a number. *)
Definition int_space (c : ascii) : bool :=
  let n := code c in
  ((9 <=? n) && (n <=? 13)) || (n =? 32) || (n =? 133) || (n =? 160).

Definition digit_of (c : ascii) : option Z :=
  let n := code c in
  if (48 <=? n) && (n <=? 57) then Some (n - 48) else None.

Fixpoint all_space (s : string) : bool :=
  match s with
  | EmptyString => true
  | String c s' => int_space c && all_space s'
  end.

(** The digits after the first one: single underscores may separate
    digits, and only blanks may follow the number. *)
Fixpoint parse_digits (s : string) (acc : Z) : option Z :=
  match s with
  | EmptyString => Some acc
  | String c s' =>
      match digit_of c with
      | Some d => parse_digits s' (10 * acc + d)
      | None =>
          if Ascii.eqb c "_" then
            match s' with
            | String c' s'' =>
                match digit_of c' with
                | Some d => parse_digits s'' (10 * acc + d)
                | None => None
                end
            | EmptyString => None
            end
          else if all_space s then Some acc else None
      end
  end.

Definition parse_unsigned (s : string) : option Z :=
  match s with
  | String c s' =>
      match digit_of c with
      | Some d => parse_digits s' d
      | None => None
      end
  | EmptyString => None
  end.

Fixpoint lstrip (sp : ascii -> bool) (s : string) : string :=
  match s with
  | String c s' => if sp c then lstrip sp s' else s
  | EmptyString => EmptyString
  end.

(** [int(s)] for a str, in base ten. *)
Definition int_of_str (s : string) : option Z :=
  match lstrip int_space s with
  | String "+" s' => parse_unsigned s'
  | String "-" s' => option_map Z.opp (parse_unsigned s')
  | s' => parse_unsigned s'
  end.

(** [int(v)]. *)
Definition py_int (v : json) : result Z :=
  match v with
  | JBool b => Ok (if b then 1 else 0)
  | JInt z => Ok z
  | JFloat f => match f_trunc f with Some z => Ok z | None => Raise ValueError end
  | JStr s => match int_of_str s with Some z => Ok z | None => Raise ValueError end
  | JNull | JList _ | JDict _ => Raise TypeError
  end.

(** ** [total / 100] and the format [.2f] *)

(** [num / den] rounded to the nearest integer, a tie to the even one
    (for [0 <= num] and [0 < den]). *)
Definition rne (num den : Z) : Z :=
  let q := num / den in
  let r := num mod den in
  if 2 * r <? den then q
  else if den <? 2 * r then q + 1
  else if Z.even q then q else q + 1.

(** A finite binary64 number: [mant * 2 ^ expo], negated when [neg]. *)
Record binary64 : Type := {
  neg : bool;
  mant : Z;
  expo : Z
}.

(** The binary64 nearest to [a / b] for [0 < a] and [0 < b] with
    [b <= a * 2 ^ 64]: 53 significant bits, ties to even. *)
Definition nearest_double (a b : Z) : Z * Z :=
  let e := Z.log2 (a * 2 ^ 64 / b) - 64 - 52 in
  (if e <? 0 then rne (a * 2 ^ (- e)) b else rne a (b * 2 ^ e), e).

(** [n / 100] for an int [n]: the correctly rounded quotient, or
    [OverflowError] when it is beyond the binary64 range. *)
Definition true_div_100 (n : Z) : result binary64 :=
  if n =? 0 then Ok {| neg := false; mant := 0; expo := 0 |}
  else
    let '(m, e) := nearest_double (Z.abs n) 100 in
    if (0 <=? e) && (2 ^ 1024 <=? m * 2 ^ e) then Raise OverflowError
    else Ok {| neg := n <? 0; mant := m; expo := e |}.

Definition two_digits (r : Z) : string :=
  String (chr (48 + r / 10)) (str1 (chr (48 + r mod 10))).

(** The decimal text of [q / 100] with two fractional digits. *)
Definition hundredths (q : Z) : string :=
  str_of_int (q / 100) ++ "." ++ two_digits (q mod 100).

(** [f"{x:.2f}"]: [x] rounded to hundredths, a tie to the even one. *)
Definition format_2f (x : binary64) : string :=
  let q := if 0 <=? expo x then 100 * mant x * 2 ^ expo x
           else rne (100 * mant x) (2 ^ (- expo x)) in
  (if neg x then "-" else "") ++ hundredths q.

(** [f"{n / 100:.2f}"]. *)
Definition format_total (n : Z) : result string :=
  x <- true_div_100 n ;;
  Ok (format_2f x).

(** ** The stat extractor *)

(** The dict returned by [extract_stats_per_gear]: its three values. *)
Record stats : Type := {
  Attack : json;
  ElementalDamage : json;
  MaxAmmo : json
}.

(** The running integer totals ([results] in the source). *)
Record totals : Type := {
  attack : Z;
  elemental_damage : Z;
  max_ammo : Z
}.

Definition zero_totals : totals :=
  {| attack := 0; elemental_damage := 0; max_ammo := 0 |}.

(** [effect_map]: the stores made into the dict, newest first.  A lookup
    finds the newest store to an equal key; the program only looks up
    str keys, and a str equals no value of another type. *)
Definition descriptor : Type := json * Z.
Definition effect_map : Type := list (json * descriptor).

Definition is_str (s : string) (v : json) : bool :=
  match v with
  | JStr s' => String.eqb s s'
  | _ => false
  end.

Fixpoint map_find (eid : string) (m : effect_map) : option descriptor :=
  match m with
  | [] => None
  | (k, d) :: m' => if is_str eid k then Some d else map_find eid m'
  end.

(** [int(func.get("function_value", 0))] under [try], 0 on any
    exception. *)
Definition function_value (func : json) : Z :=
  match (v <- py_get func "function_value" (JInt 0) ;; py_int v) with
  | Ok z => z
  | Raise _ => 0
  end.

(** The body of the inner loop, lines 88-93. *)
Definition store_function (eid : json) (m : effect_map) (func : json)
  : result effect_map :=
  ftype <- py_get func "function_type" JNull ;;
  let val := function_value func in
  if hashable eid then Ok ((eid, (ftype, val)) :: m) else Raise TypeError.

(** The body of the outer loop, lines 86-93. *)
Definition store_effect (m : effect_map) (effect : json) : result effect_map :=
  eid <- py_get effect "id" JNull ;;
  fds <- py_get effect "function_details" (JList []) ;;
  funcs <- py_iter fds ;;
  for_each funcs (store_function eid) m.

(** Step 1, lines 83-93. *)
Definition build_effect_map (response : json) : result effect_map :=
  data <- py_get response "data" (JDict []) ;;
  state_effects <- py_get data "state_effects" (JList []) ;;
  effects <- py_iter state_effects ;;
  for_each effects store_effect [].

(** Line 96. *)
Definition first_character (response : json) : result json :=
  data <- py_get response "data" (JDict []) ;;
  details <- py_get data "character_details" (JList [JDict []]) ;;
  py_index0 details.

Definition gear_keys : list string :=
  [ "arm_equip_option1_id"; "arm_equip_option2_id"; "arm_equip_option3_id";
    "leg_equip_option1_id"; "leg_equip_option2_id"; "leg_equip_option3_id";
    "head_equip_option1_id"; "head_equip_option2_id"; "head_equip_option3_id";
    "torso_equip_option1_id"; "torso_equip_option2_id"; "torso_equip_option3_id" ].

(** What one slot adds, given the descriptor its reference finds. *)
Definition add_descriptor (res : totals) (d : option descriptor) : totals :=
  match d with
  | Some (ftype, val) =>
      if is_str "StatAtk" ftype then
        {| attack := attack res + val;
           elemental_damage := elemental_damage res;
           max_ammo := max_ammo res |}
      else if is_str "IncElementDmg" ftype then
        {| attack := attack res;
           elemental_damage := elemental_damage res + val;
           max_ammo := max_ammo res |}
      else if is_str "StatAmmoLoad" ftype then
        {| attack := attack res;
           elemental_damage := elemental_damage res;
           max_ammo := max_ammo res + val |}
      else res
  | None => res
  end.

(** The reference held by a slot: [str(character.get(key))]. *)
Definition slot_ref (character : json) (key : string) : result string :=
  v <- py_get character key JNull ;;
  Ok (py_str v).

(** The body of the loop over the slots, lines 107-115. *)
Definition add_slot (m : effect_map) (character : json) (res : totals)
  (key : string) : result totals :=
  eid <- slot_ref character key ;;
  Ok (add_descriptor res (map_find eid m)).

(** Steps 1 to 3: the integer totals before they are scaled. *)
Definition accumulate (response : json) : result totals :=
  m <- build_effect_map response ;;
  character <- first_character response ;;
  for_each gear_keys (add_slot m character) zero_totals.

Definition extract_stats_per_gear (response : json) : result stats :=
  if negb (truthy response) then
    Ok {| Attack := JInt 0; ElementalDamage := JInt 0; MaxAmmo := JInt 0 |}
  else
    res <- accumulate response ;;
    a <- format_total (attack res) ;;
    e <- format_total (elemental_damage res) ;;
    m <- format_total (max_ammo res) ;;
    Ok {| Attack := JStr a; ElementalDamage := JStr e; MaxAmmo := JStr m |}.

(** ** The loaders *)

(** A row of [csv.DictReader]: the header's columns in order; a column
    the line has no field for holds [None]. *)
Definition row : Type := list (string * option string).

(** [row[k]]. *)
Definition row_item (r : row) (k : string) : result (option string) :=
  match assoc k r with
  | Some v => Ok v
  | None => Raise KeyError
  end.

(** The characters [str.strip] removes. *)
Definition str_space (c : ascii) : bool :=
  let n := code c in
  ((9 <=? n) && (n <=? 13)) || ((28 <=? n) && (n <=? 32)) || (n =? 133) || (n =? 160).

Fixpoint rstrip (sp : ascii -> bool) (s : string) : string :=
  match s with
  | EmptyString => EmptyString
  | String c s' =>
      match rstrip sp s' with
      | EmptyString => if sp c then EmptyString else str1 c
      | t => String c t
      end
  end.

(** [v.strip()]: [None] has no such method. *)
Definition strip (v : option string) : result string :=
  match v with
  | Some s => Ok (rstrip str_space (lstrip str_space s))
  | None => Raise AttributeError
  end.

(** [int(v)] for a cell. *)
Definition int_of_cell (v : option string) : result Z :=
  match v with
  | Some s => match int_of_str s with Some z => Ok z | None => Raise ValueError end
  | None => Raise TypeError
  end.

(** [mapping[code] = name] on a dict kept in insertion order. *)
Fixpoint dict_set (k : Z) (v : string) (m : list (Z * string)) : list (Z * string) :=
  match m with
  | [] => [(k, v)]
  | (k', v') :: m' => if k =? k' then (k, v) :: m' else (k', v') :: dict_set k v m'
  end.

(** The body of the [try], lines 26-28. *)
Definition unit_of_row (r : row) : result (Z * string) :=
  c <- row_item r "units/Name code" ;;
  code <- int_of_cell c ;;
  n <- row_item r "units/Name" ;;
  name <- strip n ;;
  Ok (code, name).

Definition load_units_csv (rows : list row) : list (Z * string) :=
  fold_left
    (fun mapping r =>
       match unit_of_row r with
       | Ok (code, name) => dict_set code name mapping
       | Raise _ => mapping
       end)
    rows [].

Record player : Type := {
  Player : string;
  intl_open_id : string
}.

(** [uid.split("-")[-1]]: the text after the last dash. *)
Fixpoint last_segment (s cur : string) : string :=
  match s with
  | EmptyString => cur
  | String c s' =>
      if Ascii.eqb c "-" then last_segment s' EmptyString
      else last_segment s' (cur ++ str1 c)
  end.

(** The body of the loop, lines 40-46. *)
Definition player_of_row (r : row) : result player :=
  u <- row_item r "UID" ;;
  uid <- strip u ;;
  p <- row_item r "Player" ;;
  name <- strip p ;;
  Ok {| Player := name; intl_open_id := last_segment uid EmptyString |}.

Definition load_players_csv (rows : list row) : result (list player) :=
  for_each rows (fun players r => p <- player_of_row r ;; Ok (players ++ [p])%list) [].

(** ** The driver *)

(** [sorted(units_map.items())]: the keys of a dict are distinct, so the
    order is the order of the codes. *)
Fixpoint insert_sorted (u : Z * string) (l : list (Z * string)) : list (Z * string) :=
  match l with
  | [] => [u]
  | u' :: l' => if fst u <=? fst u' then u :: l else u' :: insert_sorted u l'
  end.

Definition sorted_items (m : list (Z * string)) : list (Z * string) :=
  fold_right insert_sorted [] m.

(** What [requests.post(...)], [raise_for_status] and [r.json()] come
    to: a decoded body or a [RequestException]. *)
Inductive http : Type :=
| Body (v : json)
| RequestException.

(** A row of the output table; [None] is [JNull]. *)
Record out_row : Type := {
  row_Player : string;
  row_Unit : string;
  row_Attack : json;
  row_ElementalDamage : json;
  row_MaxAmmo : json
}.

Inductive event : Type :=
| Fetched (intl_open_id : string) (name_code : Z)
| Extracted (response : json)
| Slept.

(** The state of [main]'s loops: the table so far, the counter [step],
    and the calls made. *)
Record run : Type := {
  out_rows : list out_row;
  step : nat;
  calls : list event
}.

(** [v == 0]. *)
Definition equals_zero (v : json) : bool :=
  match v with
  | JInt z => z =? 0
  | JBool b => negb b
  | JFloat f => negb (f_truth f)
  | _ => false
  end.

Section Driver.

(** The remote service: what the [n]-th request of the run gets. *)
Variable post : nat -> string -> Z -> string -> http.

Variable cookie : string.

(** The [n]-th call of [call_character_details]; a failure is
    reported as [None]. *)
Definition call_character_details (n : nat) (intl_open_id : string)
  (name_code : Z) : json :=
  match post n intl_open_id name_code cookie with
  | Body v => v
  | RequestException => JNull
  end.

(** [resp and resp.get("code") == 0]. *)
Definition usable (resp : json) : result bool :=
  if truthy resp then
    c <- py_get resp "code" JNull ;;
    Ok (equals_zero c)
  else Ok false.

Definition failed_row (p : player) (unit_name : string) : out_row :=
  {| row_Player := Player p; row_Unit := unit_name;
     row_Attack := JNull; row_ElementalDamage := JNull; row_MaxAmmo := JNull |}.

(** The body of the inner loop, lines 142-165. *)
Definition process_pair (p : player) (st : run) (u : Z * string) : result run :=
  let '(name_code, unit_name) := u in
  let n := S (step st) in
  let resp := call_character_details n (intl_open_id p) name_code in
  let fetched := (calls st ++ [Fetched (intl_open_id p) name_code])%list in
  ok <- usable resp ;;
  if ok then
    s <- extract_stats_per_gear resp ;;
    Ok {| out_rows := (out_rows st ++
            [ {| row_Player := Player p; row_Unit := unit_name;
                 row_Attack := Attack s;
                 row_ElementalDamage := ElementalDamage s;
                 row_MaxAmmo := MaxAmmo s |} ])%list;
          step := n;
          calls := (fetched ++ [Extracted resp; Slept])%list |}
  else
    Ok {| out_rows := (out_rows st ++ [failed_row p unit_name])%list;
          step := n;
          calls := (fetched ++ [Slept])%list |}.

Definition start : run := {| out_rows := []; step := O; calls := [] |}.

(** [main] up to the writing of the table: the rows it would write. *)
Definition main (units players : list row) : result (list out_row) :=
  let units_map := load_units_csv units in
  players <- load_players_csv players ;;
  st <- for_each players
          (fun st p => for_each (sorted_items units_map) (process_pair p) st)
          start ;;
  Ok (out_rows st).

End Driver.

(** ** Vocabulary of the properties *)

(** The decimal expansion of [n / 100], two fractional digits: what the
    format is compared with. *)
Definition exact_hundredths (n : Z) : string :=
  (if n <? 0 then "-" else "") ++ hundredths (Z.abs n).

(** The largest total up to which every quotient is rendered exactly. *)
Definition exact_limit : Z := 100 * 2 ^ 46.

Inductive stat_kind : Type :=
| KAttack
| KElementalDamage
| KMaxAmmo.

(** The [function_type] that feeds a total. *)
Definition tag (k : stat_kind) : string :=
  match k with
  | KAttack => "StatAtk"
  | KElementalDamage => "IncElementDmg"
  | KMaxAmmo => "StatAmmoLoad"
  end.

Definition total_of (k : stat_kind) (t : totals) : Z :=
  match k with
  | KAttack => attack t
  | KElementalDamage => elemental_damage t
  | KMaxAmmo => max_ammo t
  end.

Definition add_totals (s t : totals) : totals :=
  {| attack := attack s + attack t;
     elemental_damage := elemental_damage s + elemental_damage t;
     max_ammo := max_ammo s + max_ammo t |}.

Definition sum_totals (l : list totals) : totals :=
  fold_right add_totals zero_totals l.

(** The reference a slot of a character record holds, as text. *)
Definition slot_text (c : list (string * json)) (key : string) : string :=
  py_str (item c key JNull).

Definition slot_refs (c : list (string * json)) : list string :=
  map (slot_text c) gear_keys.

(** What a slot holding the reference [eid] adds, on its own. *)
Definition contribution (m : effect_map) (eid : string) : totals :=
  add_descriptor zero_totals (map_find eid m).





(** The descriptor a function-detail record stands for. *)
Definition descriptor_of (func : json) (d : descriptor) : Prop :=
  py_get func "function_type" JNull = Ok (fst d) /\ snd d = function_value func.


Definition is_digit (c : ascii) : bool := (48 <=? code c) && (code c <=? 57).

(** A text that ends in a point and two digits. *)
Definition two_decimals (s : string) : Prop :=
  exists whole d1 d2,
    s = whole ++ "." ++ String d1 (String d2 EmptyString) /\
    is_digit d1 = true /\ is_digit d2 = true.

(** Totals below this bound have a quotient within the binary64 range. *)
Definition float_limit : Z := 100 * 2 ^ 1023.

(** The shape the extractor is written for: objects where it calls
    [get], lists where it iterates, a first character record, and
    effect ids that can be dict keys. *)
Definition is_dict (v : json) : bool :=
  match v with
  | JDict _ => true
  | _ => false
  end.

Definition well_shaped_effect (e : json) : bool :=
  match e with
  | JDict em =>
      hashable (item em "id" JNull) &&
      match item em "function_details" (JList []) with
      | JList funcs => forallb is_dict funcs
      | _ => false
      end
  | _ => false
  end.

Definition well_shaped (response : json) : bool :=
  match response with
  | JDict rm =>
      match item rm "data" (JDict []) with
      | JDict dm =>
          match item dm "state_effects" (JList []) with
          | JList effects => forallb well_shaped_effect effects
          | _ => false
          end &&
          match item dm "character_details" (JList [JDict []]) with
          | JList (JDict _ :: _) => true
          | _ => false
          end
      | _ => false
      end
  | _ => false
  end.

(** ** Vocabulary of the further properties *)

(** [mapping.get(code)]. *)
Fixpoint dict_get (k : Z) (m : list (Z * string)) : option string :=
  match m with
  | [] => None
  | (k', v) :: m' => if k =? k' then Some v else dict_get k m'
  end.

(** What one row does to the mapping in [load_units_csv]. *)
Definition add_unit (mapping : list (Z * string)) (r : row) : list (Z * string) :=
  match unit_of_row r with
  | Ok (code, name) => dict_set code name mapping
  | Raise _ => mapping
  end.

(** A text that [strip] leaves as it is. *)
Definition trimmed (s : string) : Prop := strip (Some s) = Ok s.

(** A [function_type] that feeds one of the three totals. *)
Definition tracked (ftype : json) : bool :=
  is_str "StatAtk" ftype || is_str "IncElementDmg" ftype || is_str "StatAmmoLoad" ftype.


(** The pairs in the order [main] visits them. *)
Definition pairs (players : list player) (units : list (Z * string))
  : list (player * (Z * string)) :=
  flat_map (fun p => map (pair p) units) players.

(** The row of one pair as a function of the [n]-th request alone. *)
Definition row_of (post : nat -> string -> Z -> string -> http) (cookie : string)
  (n : nat) (p : player) (u : Z * string) : result out_row :=
  let resp := call_character_details post cookie n (intl_open_id p) (fst u) in
  ok <- usable resp ;;
  if ok then
    s <- extract_stats_per_gear resp ;;
    Ok {| row_Player := Player p; row_Unit := snd u;
          row_Attack := Attack s;
          row_ElementalDamage := ElementalDamage s;
          row_MaxAmmo := MaxAmmo s |}
  else Ok (failed_row p (snd u)).

(** The rows of a list of pairs, the requests numbered from [n + 1]. *)
Fixpoint rows_from (post : nat -> string -> Z -> string -> http) (cookie : string)
  (n : nat) (ps : list (player * (Z * string))) : result (list out_row) :=
  match ps with
  | [] => Ok []
  | (p, u) :: ps' =>
      r <- row_of post cookie (S n) p u ;;
      rs <- rows_from post cookie (S n) ps' ;;
      Ok (r :: rs)
  end.

(** The first two columns of the table. *)
Definition labels (rows : list out_row) : list (string * string) :=
  map (fun r => (row_Player r, row_Unit r)) rows.

Definition is_fetch (e : event) : bool :=
  match e with
  | Fetched _ _ => true
  | _ => false
  end.

Definition is_pause (e : event) : bool :=
  match e with
  | Slept => true
  | _ => false
  end.

(** The loop state [r1] and the rows [r2] agree: both raise the same
    exception, or the state holds the rows after those of [st] and
    its counter has advanced by [k]. *)
Definition same_rows (st : run) (k : nat) (r1 : result run)
  (r2 : result (list out_row)) : Prop :=
  match r1, r2 with
  | Ok st', Ok rs =>
      out_rows st' = (out_rows st ++ rs)%list /\ step st' = (step st + k)%nat
  | Raise e, Raise e' => e = e'
  | _, _ => False
  end.

(** The first two cells of the row of a pair. *)
Definition label_of (pu : player * (Z * string)) : string * string :=
  (Player (fst pu), snd (snd pu)).

Definition fetches (st : run) : nat := List.length (filter is_fetch (calls st)).

Definition pauses (st : run) : nat := List.length (filter is_pause (calls st)).

Definition ascending (a b : Z * string) : Prop := fst a < fst b.

(** The smallest total whose quotient rounds beyond the binary64 range. *)
Definition overflow_limit : Z := 100 * (2 ^ 1024 - 2 ^ 970).

(** ** Responses used as examples *)

Module Fixtures.

Definition func (ftype value : string) : json :=
  JDict [("function_type", JStr ftype); ("function_value", JStr value)].

Definition effect (id : json) (funcs : list json) : json :=
  JDict [("id", id); ("function_details", JList funcs)].

Definition response (effects : json) (characters : json) : json :=
  JDict [("code", JInt 0);
         ("data", JDict [("state_effects", effects);
                         ("character_details", characters)])].

(** The player does not own the unit: no effect, no character record. *)
Definition no_character : json := response (JList []) (JList []).

(** ["data": null]. *)
Definition null_data : json := JDict [("code", JInt 0); ("data", JNull)].

(** A body that lacks the status: the character data alone. *)
Definition null_data_no_code : json :=
  JDict [("data", JDict [("state_effects", JList []);
                         ("character_details", JList [JDict []])])].

(** An effect whose id is a list. *)
Definition list_id : json :=
  response (JList [effect (JList [JInt 5]) [func "StatAtk" "100"]])
           (JList [JDict []]).

(** One effect of magnitude 1000 in one slot (the scenario of the
    specification). *)
Definition one_slot : json :=
  response (JList [effect (JStr "5") [func "StatAtk" "1000"]])
           (JList [JDict [("arm_equip_option1_id", JStr "5")]]).

(** One effect of magnitude 300 referenced by two slots. *)
Definition shared : json :=
  response (JList [effect (JStr "7") [func "StatAtk" "300"]])
           (JList [JDict [("arm_equip_option1_id", JStr "7");
                          ("head_equip_option2_id", JStr "7")]]).

(** The id 5 twice, the second time with two function details. *)
Definition repeated_effects : list json :=
  [ effect (JStr "5") [func "StatAtk" "100"];
    effect (JStr "5") [func "StatAmmoLoad" "1"; func "IncElementDmg" "250"];
    effect (JStr "6") [func "StatAtk" "40"] ].

Definition repeated : json :=
  response (JList repeated_effects)
           (JList [JDict [("leg_equip_option1_id", JStr "5")]]).


(** A status other than 0. *)
Definition refused : list (string * json) :=
  [("code", JInt 1001); ("msg", JStr "not logged in")].

Definition alice : player := {| Player := "Alice"; intl_open_id := "X1" |}.

(** The line [Alice] under the header [Player,UID]. *)
Definition short_player_row : row := [("Player", Some "Alice"); ("UID", None)].

Definition bad_unit_row : row :=
  [("units/Name code", Some "n/a"); ("units/Name", Some "Beta")].

Definition good_unit_row : row :=
  [("units/Name code", Some "7"); ("units/Name", Some "Alpha")].

Definition unreachable : nat -> string -> Z -> string -> http :=
  fun _ _ _ _ => RequestException.

Definition refusing : nat -> string -> Z -> string -> http :=
  fun _ _ _ _ => Body (JDict refused).

(** No effect and a character record: genuine zero stats. *)
Definition zero_stats : json := response (JList []) (JList [JDict []]).

(** A service that fails for unit 7 and answers zero stats otherwise. *)
Definition flaky : nat -> string -> Z -> string -> http :=
  fun _ _ name_code _ => if name_code =? 7 then RequestException else Body zero_stats.

End Fixtures.

(** * Properties *)

(** ** The error monad *)

Lemma bind_ok {A B : Type} (r : result A) (k : A -> result B) (b : B) :
  bind r k = Ok b -> exists a, r = Ok a /\ k a = Ok b.
Proof.
  destruct r as [a | e]; simpl; intros H; [eauto | discriminate].
Qed.

Lemma for_each_app {A S : Type} (xs ys : list A) (body : S -> A -> result S) (st : S) :
  for_each (xs ++ ys)%list body st =
  (st' <- for_each xs body st ;; for_each ys body st').
Proof.
  revert st. induction xs as [| x xs IH]; intros st; simpl.
  - reflexivity.
  - destruct (body st x) as [st1 | e]; simpl; [apply IH | reflexivity].
Qed.

Ltac bind_inv H :=
  let a := fresh "a" in
  let Ha := fresh "H" a in
  apply bind_ok in H; destruct H as (a & Ha & H).

(** ** Rounding *)

Lemma rne_unique (num den x : Z) :
  0 < den -> 2 * Z.abs (num - x * den) < den -> rne num den = x.
Proof.
  intros Hden Hclose. unfold rne.
  pose proof (Z.div_mod num den ltac:(lia)) as Hdm.
  pose proof (Z.mod_pos_bound num den Hden) as Hr.
  set (q := num / den) in *. set (r := num mod den) in *.
  assert (Hx : x = q + (x - q)) by lia.
  set (d := x - q) in *. rewrite Hx in *. clear Hx.
  assert (Hd : d <= -1 \/ d = 0 \/ d = 1 \/ 2 <= d) by lia.
  destruct Hd as [Hd | [Hd | [Hd | Hd]]].
  - exfalso. assert (d * den <= - den) by nia. lia.
  - subst d. rewrite Hd in *.
    destruct (2 * r <? den) eqn:E1; [lia | apply Z.ltb_ge in E1; exfalso; lia].
  - subst d. rewrite Hd in *.
    destruct (2 * r <? den) eqn:E1; [apply Z.ltb_lt in E1; exfalso; lia|].
    apply Z.ltb_ge in E1.
    destruct (den <? 2 * r) eqn:E2; [lia | apply Z.ltb_ge in E2; exfalso; lia].
  - exfalso. assert (2 * den <= d * den) by nia. lia.
Qed.

Lemma rne_close (num den : Z) :
  0 < den -> 2 * Z.abs (rne num den * den - num) <= den.
Proof.
  intros Hden. unfold rne.
  pose proof (Z.div_mod num den ltac:(lia)) as Hdm.
  pose proof (Z.mod_pos_bound num den Hden) as Hr.
  set (q := num / den) in *. set (r := num mod den) in *.
  destruct (2 * r <? den) eqn:E1; [apply Z.ltb_lt in E1 | apply Z.ltb_ge in E1].
  - lia.
  - destruct (den <? 2 * r) eqn:E2; [apply Z.ltb_lt in E2 | apply Z.ltb_ge in E2].
    + lia.
    + destruct (Z.even q); lia.
Qed.

Lemma small_exponent (a : Z) :
  0 < a < exact_limit -> Z.log2 (a * 2 ^ 64 / 100) - 64 - 52 <= -7.
Proof.
  unfold exact_limit. intros Ha.
  assert (Hlt : a * 2 ^ 64 / 100 < 2 ^ 110).
  { apply Z.div_lt_upper_bound; [lia|].
    change (2 ^ 110) with (2 ^ 46 * 2 ^ 64). nia. }
  assert (Hpos : 0 < a * 2 ^ 64 / 100).
  { apply Z.div_str_pos. change (2 ^ 64) with 18446744073709551616. lia. }
  apply Z.log2_lt_pow2 in Hlt; lia.
Qed.

Lemma round_trip (a : Z) :
  0 < a < exact_limit ->
  let '(m, e) := nearest_double a 100 in
  e < 0 /\ rne (100 * m) (2 ^ (- e)) = a.
Proof.
  intros Ha. unfold nearest_double.
  pose proof (small_exponent a Ha) as He.
  set (e := Z.log2 (a * 2 ^ 64 / 100) - 64 - 52) in *.
  assert (E : (e <? 0) = true) by (apply Z.ltb_lt; lia).
  rewrite E. split; [lia|].
  assert (Hp : 2 ^ 7 <= 2 ^ (- e)) by (apply Z.pow_le_mono_r; lia).
  change (2 ^ 7) with 128 in Hp.
  pose proof (rne_close (a * 2 ^ (- e)) 100 ltac:(lia)) as Hc.
  apply rne_unique; [lia|]. lia.
Qed.

(** ** The format of a total *)

Lemma format_total_inside (n : Z) :
  0 < Z.abs n < exact_limit -> format_total n = Ok (exact_hundredths n).
Proof.
  intros Hn. unfold format_total, true_div_100.
  assert (E : (n =? 0) = false) by (apply Z.eqb_neq; lia).
  rewrite E.
  pose proof (round_trip (Z.abs n) Hn) as Hrt.
  destruct (nearest_double (Z.abs n) 100) as [m e].
  destruct Hrt as [He Hq].
  assert (E' : (0 <=? e) = false) by (apply Z.leb_gt; exact He).
  rewrite E'. cbn [andb bind]. unfold format_2f. cbn [expo mant neg].
  rewrite E', Hq. reflexivity.
Qed.

Example format_100 : format_total 100 = Ok "1.00".
Proof. reflexivity. Qed.

Example format_0 : format_total 0 = Ok "0.00".
Proof. reflexivity. Qed.

Lemma append_assoc (r s t : string) : (r ++ s) ++ t = r ++ (s ++ t).
Proof. induction r as [| c r IH]; simpl; [reflexivity | now rewrite IH]. Qed.

Lemma digit_char (d : Z) : 0 <= d <= 9 -> is_digit (chr (48 + d)) = true.
Proof.
  intros Hd.
  assert (H : d = 0 \/ d = 1 \/ d = 2 \/ d = 3 \/ d = 4 \/ d = 5 \/ d = 6 \/
              d = 7 \/ d = 8 \/ d = 9) by lia.
  repeat (destruct H as [-> | H]; [reflexivity |]). now subst.
Qed.

Lemma hundredths_two_decimals (sign : string) (q : Z) :
  two_decimals (sign ++ hundredths q).
Proof.
  exists (sign ++ str_of_int (q / 100)),
         (chr (48 + (q mod 100) / 10)), (chr (48 + (q mod 100) mod 10)).
  pose proof (Z.mod_pos_bound q 100 ltac:(lia)) as Hr.
  split; [| split].
  - unfold hundredths, two_digits, str1. now rewrite append_assoc.
  - apply digit_char.
    pose proof (Z.div_pos (q mod 100) 10 ltac:(lia) ltac:(lia)).
    assert (q mod 100 / 10 < 10) by (apply Z.div_lt_upper_bound; lia). lia.
  - apply digit_char. pose proof (Z.mod_pos_bound (q mod 100) 10 ltac:(lia)). lia.
Qed.

Lemma format_2f_two_decimals (x : binary64) : two_decimals (format_2f x).
Proof. unfold format_2f. apply hundredths_two_decimals. Qed.

Lemma format_total_two_decimals (n : Z) (s : string) :
  format_total n = Ok s -> two_decimals s.
Proof.
  unfold format_total. intros H. bind_inv H. injection H as <-.
  apply format_2f_two_decimals.
Qed.

Lemma rne_le (num den bound : Z) :
  0 < den -> num < den * bound -> rne num den <= bound.
Proof.
  intros Hden Hnum. unfold rne.
  assert (Hq : num / den < bound) by (apply Z.div_lt_upper_bound; lia).
  destruct (2 * (num mod den) <? den); [lia |].
  destruct (den <? 2 * (num mod den)); [lia |].
  destruct (Z.even (num / den)); lia.
Qed.

Lemma no_overflow (a : Z) :
  0 < a < float_limit ->
  let '(m, e) := nearest_double a 100 in
  0 <= e -> m * 2 ^ e < 2 ^ 1024.
Proof.
  unfold float_limit. intros Ha. unfold nearest_double.
  set (X := a * 2 ^ 64 / 100).
  assert (HX : 0 < X).
  { apply Z.div_str_pos. change (2 ^ 64) with 18446744073709551616. lia. }
  pose proof (Z.log2_spec X HX) as [Hlo Hhi].
  pose proof (Z.log2_nonneg X) as Hk.
  assert (Hlt : X < 2 ^ 1087).
  { apply Z.div_lt_upper_bound; [lia |].
    change (2 ^ 1087) with (2 ^ 1023 * 2 ^ 64).
    pose proof (Z.pow_pos_nonneg 2 64 ltac:(lia) ltac:(lia)). nia. }
  apply Z.log2_lt_pow2 in Hlt; [| exact HX].
  set (k := Z.log2 X) in *. set (e := k - 64 - 52).
  destruct (e <? 0) eqn:E; [intros; apply Z.ltb_lt in E; lia |].
  apply Z.ltb_ge in E. intros _.
  assert (Hpe : 0 < 2 ^ e) by (apply Z.pow_pos_nonneg; lia).
  assert (Ha' : a < 100 * 2 ^ e * 2 ^ 53).
  { assert (Hmul : a * 2 ^ 64 < 100 * 2 ^ Z.succ k).
    { pose proof (Z.mod_pos_bound (a * 2 ^ 64) 100 ltac:(lia)) as Hr.
      pose proof (Z.div_mod (a * 2 ^ 64) 100 ltac:(lia)) as Hdm.
      fold X in Hdm. lia. }
    replace (Z.succ k) with (e + 53 + 64) in Hmul by (unfold e; lia).
    rewrite !Z.pow_add_r in Hmul by lia.
    pose proof (Z.pow_pos_nonneg 2 64 ltac:(lia) ltac:(lia)). nia. }
  pose proof (rne_le a (100 * 2 ^ e) (2 ^ 53) ltac:(lia) Ha') as Hm.
  assert (He : 2 ^ e <= 2 ^ 970) by (apply Z.pow_le_mono_r; unfold e; lia).
  assert (2 ^ 53 * 2 ^ 970 < 2 ^ 1024) by (vm_compute; reflexivity).
  assert (rne a (100 * 2 ^ e) * 2 ^ e <= 2 ^ 53 * 2 ^ 970).
  { apply Z.mul_le_mono_nonneg; try lia.
    unfold rne. pose proof (Z.div_pos a (100 * 2 ^ e) ltac:(lia) ltac:(lia)).
    destruct (2 * (a mod (100 * 2 ^ e)) <? 100 * 2 ^ e); [lia |].
    destruct (100 * 2 ^ e <? 2 * (a mod (100 * 2 ^ e))); [lia |].
    destruct (Z.even (a / (100 * 2 ^ e))); lia. }
  lia.
Qed.

Lemma format_total_returns (n : Z) :
  Z.abs n < float_limit -> exists s, format_total n = Ok s /\ two_decimals s.
Proof.
  intros Hn.
  assert (H : exists s, format_total n = Ok s).
  { unfold format_total, true_div_100.
    destruct (n =? 0) eqn:E; [eexists; reflexivity |].
    apply Z.eqb_neq in E.
    pose proof (no_overflow (Z.abs n) ltac:(lia)) as Hno.
    destruct (nearest_double (Z.abs n) 100) as [m e].
    destruct (0 <=? e) eqn:Ee.
    - apply Z.leb_le in Ee. specialize (Hno Ee).
      apply Z.leb_gt in Hno. rewrite Hno. eexists; reflexivity.
    - eexists; reflexivity. }
  destruct H as [s Hs]. exists s. split; [exact Hs |].
  exact (format_total_two_decimals n s Hs).
Qed.

(** C8, as amended: for every accumulated total [n] with
    [|n| <= 100 * 2^46 = 7036874417766400], the text produced for it is
    the decimal expansion of [n / 100] with exactly two fractional
    digits, trailing zeros included. *)
Theorem format_total_exact (n : Z) :
  Z.abs n <= exact_limit ->
  format_total n = Ok (exact_hundredths n) /\ two_decimals (exact_hundredths n).
Proof.
  intros Hn. split; [| apply hundredths_two_decimals].
  destruct (Z.eq_dec n 0) as [-> | Hz]; [reflexivity |].
  destruct (Z.eq_dec n exact_limit) as [-> | Hhi]; [vm_compute; reflexivity |].
  destruct (Z.eq_dec n (- exact_limit)) as [-> | Hlo]; [vm_compute; reflexivity |].
  apply format_total_inside. lia.
Qed.

Lemma format_total_exact_witness :
  Z.abs 100 <= exact_limit /\
  format_total 100 = Ok "1.00" /\ two_decimals "1.00".
Proof.
  split.
  - vm_compute. discriminate.
  - apply (format_total_exact 100). vm_compute. discriminate.
Defined.

(** C8, as stated, fails above the limit: the total 7036874417766401 is
    rendered with the hundredths digit 2 instead of 1, and for the
    total 10^400 no text is produced, the division raises. *)
Lemma format_total_inexact :
  format_total (exact_limit + 1) = Ok "70368744177664.02" /\
  exact_hundredths (exact_limit + 1) = "70368744177664.01" /\
  format_total (exact_limit + 1) <> Ok (exact_hundredths (exact_limit + 1)) /\
  format_total (10 ^ 400) = Raise OverflowError.
Proof.
  split; [vm_compute; reflexivity |].
  split; [vm_compute; reflexivity |].
  split; [vm_compute; discriminate | vm_compute; reflexivity].
Qed.

(** The largest binary64 is passed between these two totals. *)
Example format_total_overflow :
  format_total (10 ^ 310) =
    Ok ("1" ++ "00000000000000001097906362944045541740492309677311846336810682903157585404911491537163328978494688899061249669721172515611590283743140088328307009198146046031271664502933027185697489699588559043338384466165001178426897626212945177628091195786707458122783970171784415105291802893207873272974885715430223118336" ++ ".00") /\
  format_total (10 ^ 311) = Raise OverflowError.
Proof. split; vm_compute; reflexivity. Qed.

(** ** Where the extractor raises, and what it returns without a response *)

(** C1, at inputs the claim names: an empty [character_details] list, a
    [data] field that is not a dict, and an effect entry whose id is a
    list each make [extract_stats_per_gear] raise. *)
Theorem extractor_raises_on_malformed_parts :
  extract_stats_per_gear Fixtures.no_character = Raise IndexError /\
  extract_stats_per_gear Fixtures.null_data = Raise AttributeError /\
  extract_stats_per_gear Fixtures.list_id = Raise TypeError.
Proof. repeat split; reflexivity. Qed.

(** C2, at the absent response: the early return hands back the integer
    0 three times, not the text "0.00" that the normal path produces. *)
Theorem absent_response_gives_integers :
  extract_stats_per_gear JNull =
    Ok {| Attack := JInt 0; ElementalDamage := JInt 0; MaxAmmo := JInt 0 |} /\
  JInt 0 <> JStr "0.00".
Proof. split; [reflexivity | discriminate]. Qed.

(** The same early return is taken for the empty dict. *)
Example empty_response_gives_integers :
  extract_stats_per_gear (JDict []) =
    Ok {| Attack := JInt 0; ElementalDamage := JInt 0; MaxAmmo := JInt 0 |}.
Proof. reflexivity. Qed.

(** C7, at a response without state effects and without a character
    record: the extractor raises instead of returning three "0.00". *)
Theorem no_effects_no_character_raises :
  (data <- py_get Fixtures.no_character "data" (JDict []) ;;
   py_get data "state_effects" (JList [])) = Ok (JList []) /\
  extract_stats_per_gear Fixtures.no_character = Raise IndexError.
Proof. split; reflexivity. Qed.

(** The scenario of the specification. *)
Example one_slot_scenario :
  extract_stats_per_gear Fixtures.one_slot =
    Ok {| Attack := JStr "10.00"; ElementalDamage := JStr "0.00"; MaxAmmo := JStr "0.00" |}.
Proof. reflexivity. Qed.

(** ** The totals as sums over the slots *)

Lemma add_totals_zero_r (t : totals) : add_totals t zero_totals = t.
Proof. destruct t; unfold add_totals; simpl; f_equal; lia. Qed.

Lemma add_totals_assoc (r s t : totals) :
  add_totals (add_totals r s) t = add_totals r (add_totals s t).
Proof. unfold add_totals; simpl; f_equal; lia. Qed.

Lemma add_descriptor_split (res : totals) (d : option descriptor) :
  add_descriptor res d = add_totals res (add_descriptor zero_totals d).
Proof.
  destruct res as [a e m]. destruct d as [[ftype val] |]; simpl.
  - destruct (is_str "StatAtk" ftype); [| destruct (is_str "IncElementDmg" ftype);
      [| destruct (is_str "StatAmmoLoad" ftype)]];
      unfold add_totals; simpl; f_equal; lia.
  - unfold add_totals; simpl; f_equal; lia.
Qed.

Lemma add_slot_dict (m : effect_map) (c : list (string * json)) (res : totals)
  (key : string) :
  add_slot m (JDict c) res key =
  Ok (add_totals res (contribution m (slot_text c key))).
Proof.
  unfold add_slot, slot_ref, contribution, slot_text. simpl.
  now rewrite add_descriptor_split.
Qed.

Lemma slots_sum (m : effect_map) (c : list (string * json)) (keys : list string)
  (res : totals) :
  for_each keys (add_slot m (JDict c)) res =
  Ok (add_totals res (sum_totals (map (fun key => contribution m (slot_text c key)) keys))).
Proof.
  revert res. induction keys as [| key keys IH]; intros res.
  - simpl. now rewrite add_totals_zero_r.
  - cbn [for_each]. rewrite add_slot_dict. cbn [bind]. rewrite IH.
    cbn [map sum_totals fold_right]. now rewrite add_totals_assoc.
Qed.

Lemma add_totals_zero_l (t : totals) : add_totals zero_totals t = t.
Proof. destruct t; unfold add_totals; simpl; reflexivity. Qed.

Lemma accumulate_sum (response : json) (m : effect_map) (c : list (string * json)) :
  build_effect_map response = Ok m ->
  first_character response = Ok (JDict c) ->
  accumulate response = Ok (sum_totals (map (contribution m) (slot_refs c))).
Proof.
  intros Hm Hc. unfold accumulate. rewrite Hm, Hc. cbn [bind].
  rewrite slots_sum, add_totals_zero_l. unfold slot_refs.
  now rewrite map_map.
Qed.













(** The case the amended C5 leaves out: a slot field that is missing
    reads as the text "None" through [str], so an effect whose id is
    spelled "None" is matched by every absent slot; here all twelve
    slots are absent and the Attack total is 12 times the magnitude. *)
Example missing_slot_reads_as_None :
  slot_text [] "arm_equip_option1_id" = "None" /\
  accumulate (Fixtures.response
                (JList [Fixtures.effect (JStr "None") [Fixtures.func "StatAtk" "100"]])
                (JList [JDict []])) =
    Ok {| attack := 1200; elemental_damage := 0; max_ammo := 0 |}.
Proof. split; reflexivity. Qed.

(** ** No deduplication across slots *)

Lemma total_of_add (k : stat_kind) (s t : totals) :
  total_of k (add_totals s t) = total_of k s + total_of k t.
Proof. destruct k; reflexivity. Qed.

Lemma total_of_contribution (m : effect_map) (k : stat_kind) (eid : string) (val : Z) :
  map_find eid m = Some (JStr (tag k), val) ->
  total_of k (contribution m eid) = val.
Proof.
  intros H. unfold contribution. rewrite H. destruct k; reflexivity.
Qed.

Lemma sum_totals_cons (t : totals) (l : list totals) :
  sum_totals (t :: l) = add_totals t (sum_totals l).
Proof. reflexivity. Qed.

Lemma sum_by_reference (m : effect_map) (k : stat_kind) (eid : string) (val : Z)
  (refs : list string) :
  map_find eid m = Some (JStr (tag k), val) ->
  total_of k (sum_totals (map (contribution m) refs)) =
  val * Z.of_nat (count_occ string_dec refs eid) +
  total_of k (sum_totals (map (contribution m)
                (filter (fun r => negb (String.eqb r eid)) refs))).
Proof.
  intros H. induction refs as [| r refs IH].
  - simpl. destruct k; simpl; lia.
  - cbn [map count_occ filter]. rewrite sum_totals_cons, total_of_add, IH.
    destruct (string_dec r eid) as [-> | Hne].
    + rewrite String.eqb_refl. cbn [negb].
      rewrite (total_of_contribution m k eid val H). lia.
    + apply String.eqb_neq in Hne. rewrite Hne. cbn [negb map].
      rewrite sum_totals_cons, total_of_add. lia.
Qed.

(** C4: every slot that references a matched effect adds the full
    magnitude to the total of the effect's kind: the total is the
    magnitude times the number of referencing slots, plus what the
    other slots add. *)
Theorem slots_do_not_deduplicate (response : json) (m : effect_map)
  (c : list (string * json)) (k : stat_kind) (eid : string) (val : Z) :
  build_effect_map response = Ok m ->
  first_character response = Ok (JDict c) ->
  map_find eid m = Some (JStr (tag k), val) ->
  exists res,
    accumulate response = Ok res /\
    total_of k res =
      val * Z.of_nat (count_occ string_dec (slot_refs c) eid) +
      total_of k (sum_totals (map (contribution m)
                    (filter (fun r => negb (String.eqb r eid)) (slot_refs c)))).
Proof.
  intros Hm Hc Hfind. eexists. split.
  - exact (accumulate_sum response m c Hm Hc).
  - exact (sum_by_reference m k eid val (slot_refs c) Hfind).
Qed.

Lemma slots_do_not_deduplicate_witness :
  exists res,
    accumulate Fixtures.shared = Ok res /\
    total_of KAttack res = 300 * 2 + 0.
Proof.
  apply (slots_do_not_deduplicate Fixtures.shared
           [(JStr "7", (JStr "StatAtk", 300))]
           [("arm_equip_option1_id", JStr "7"); ("head_equip_option2_id", JStr "7")]
           KAttack "7" 300); reflexivity.
Defined.

(** The example of the claim: magnitude 300 in two slots gives 6.00. *)
Example shared_effect_counts_twice :
  extract_stats_per_gear Fixtures.shared =
    Ok {| Attack := JStr "6.00"; ElementalDamage := JStr "0.00"; MaxAmmo := JStr "0.00" |}.
Proof. reflexivity. Qed.

(** ** The descriptor table: the last store wins *)

Lemma is_str_other (eid : string) (k : json) :
  k <> JStr eid -> is_str eid k = false.
Proof.
  intros Hk. destruct k as [| b | z | f | s | l | c]; try reflexivity.
  simpl. apply String.eqb_neq. congruence.
Qed.

Lemma store_function_inv (eid : json) (m m' : effect_map) (func : json) :
  store_function eid m func = Ok m' ->
  exists d, descriptor_of func d /\ m' = (eid, d) :: m.
Proof.
  unfold store_function. intros H. bind_inv H. rename a into ftype.
  destruct (hashable eid); [| discriminate].
  injection H as <-. exists (ftype, function_value func).
  split; [split; [exact Ha | reflexivity] | reflexivity].
Qed.

Lemma store_functions_other (eid : string) (k : json) (funcs : list json)
  (m m' : effect_map) :
  k <> JStr eid ->
  for_each funcs (store_function k) m = Ok m' ->
  map_find eid m' = map_find eid m.
Proof.
  intros Hk. revert m. induction funcs as [| func funcs IH]; intros m H.
  - injection H as <-. reflexivity.
  - cbn [for_each] in H. bind_inv H. rename a into m1.
    apply store_function_inv in Ha. destruct Ha as (d & _ & ->).
    rewrite (IH _ H). simpl. now rewrite (is_str_other eid k Hk).
Qed.

Lemma store_effect_other (eid : string) (m m' : effect_map) (e : json) :
  py_get e "id" JNull <> Ok (JStr eid) ->
  store_effect m e = Ok m' ->
  map_find eid m' = map_find eid m.
Proof.
  intros Hid H. unfold store_effect in H.
  bind_inv H. bind_inv H. bind_inv H.
  apply (store_functions_other eid a a1 m m'); [congruence | exact H].
Qed.

Lemma store_effects_other (eid : string) (post : list json) (m m' : effect_map) :
  (forall e, In e post -> py_get e "id" JNull <> Ok (JStr eid)) ->
  for_each post store_effect m = Ok m' ->
  map_find eid m' = map_find eid m.
Proof.
  revert m. induction post as [| e post IH]; intros m Hpost H.
  - injection H as <-. reflexivity.
  - cbn [for_each] in H. bind_inv H. rename a into m1.
    rewrite (IH m1 (fun e' He' => Hpost e' (or_intror He')) H).
    apply (store_effect_other eid m m1 e); [apply Hpost; now left | exact Ha].
Qed.

Lemma store_functions_last (eid : string) (funcs : list json) (func : json)
  (m m' : effect_map) :
  for_each (funcs ++ [func])%list (store_function (JStr eid)) m = Ok m' ->
  exists d, descriptor_of func d /\ map_find eid m' = Some d.
Proof.
  intros H. rewrite for_each_app in H. bind_inv H. rename a into m1.
  cbn [for_each] in H. bind_inv H. injection H as <-.
  apply store_function_inv in Ha0. destruct Ha0 as (d & Hd & ->).
  exists d. split; [exact Hd |]. simpl. now rewrite String.eqb_refl.
Qed.

(** C3: in the table built from a response, the descriptor of an
    EffectID is the one of the last function-detail record of the last
    effect entry that carries this id, whatever earlier entries (with
    the same id or not) and earlier function-detail records hold. *)
Theorem effect_map_last_write_wins (response data : json) (pre post : list json)
  (entry : json) (eid : string) (funcs : list json) (func : json)
  (m : effect_map) :
  py_get response "data" (JDict []) = Ok data ->
  py_get data "state_effects" (JList []) = Ok (JList (pre ++ entry :: post)) ->
  py_get entry "id" JNull = Ok (JStr eid) ->
  py_get entry "function_details" (JList []) = Ok (JList (funcs ++ [func])) ->
  (forall e, In e post -> py_get e "id" JNull <> Ok (JStr eid)) ->
  build_effect_map response = Ok m ->
  exists d, descriptor_of func d /\ map_find eid m = Some d.
Proof.
  intros Hdata Heffects Hid Hfuncs Hpost H.
  unfold build_effect_map in H. rewrite Hdata in H. cbn [bind] in H.
  rewrite Heffects in H. cbn [bind py_iter] in H.
  rewrite for_each_app in H. bind_inv H. rename a into m0.
  cbn [for_each] in H. bind_inv H. rename a into m1.
  rewrite (store_effects_other eid post m1 m Hpost H).
  unfold store_effect in Ha0. rewrite Hid, Hfuncs in Ha0.
  cbn [bind py_iter] in Ha0.
  exact (store_functions_last eid funcs func m0 m1 Ha0).
Qed.

Lemma effect_map_last_write_wins_witness :
  build_effect_map Fixtures.repeated =
    Ok [ (JStr "6", (JStr "StatAtk", 40));
         (JStr "5", (JStr "IncElementDmg", 250));
         (JStr "5", (JStr "StatAmmoLoad", 1));
         (JStr "5", (JStr "StatAtk", 100)) ] /\
  exists d,
    descriptor_of (Fixtures.func "IncElementDmg" "250") d /\
    map_find "5"
      [ (JStr "6", (JStr "StatAtk", 40));
        (JStr "5", (JStr "IncElementDmg", 250));
        (JStr "5", (JStr "StatAmmoLoad", 1));
        (JStr "5", (JStr "StatAtk", 100)) ] = Some d.
Proof.
  split; [reflexivity |].
  apply (effect_map_last_write_wins Fixtures.repeated
           (JDict [("state_effects", JList Fixtures.repeated_effects);
                   ("character_details",
                    JList [JDict [("leg_equip_option1_id", JStr "5")]])])
           [Fixtures.effect (JStr "5") [Fixtures.func "StatAtk" "100"]]
           [Fixtures.effect (JStr "6") [Fixtures.func "StatAtk" "40"]]
           (Fixtures.effect (JStr "5")
              [Fixtures.func "StatAmmoLoad" "1"; Fixtures.func "IncElementDmg" "250"])
           "5" [Fixtures.func "StatAmmoLoad" "1"] (Fixtures.func "IncElementDmg" "250"));
    try reflexivity.
  intros e [<- | []]. discriminate.
Defined.

(** The crafted response: the slot that references id 5 feeds the
    elemental damage, from the last function detail of the last entry. *)
Example repeated_effects_output :
  extract_stats_per_gear Fixtures.repeated =
    Ok {| Attack := JStr "0.00"; ElementalDamage := JStr "2.50"; MaxAmmo := JStr "0.00" |}.
Proof. reflexivity. Qed.

(** ** Where the extractor returns *)

Lemma store_functions_ok (eid : json) (funcs : list json) (m : effect_map) :
  hashable eid = true -> forallb is_dict funcs = true ->
  exists m', for_each funcs (store_function eid) m = Ok m'.
Proof.
  intros Hh. revert m. induction funcs as [| func funcs IH]; intros m Hf.
  - eexists; reflexivity.
  - cbn [forallb] in Hf. apply andb_prop in Hf. destruct Hf as [Hd Hf].
    destruct func; try discriminate.
    cbn [for_each]. unfold store_function at 1. cbn [py_get bind]. rewrite Hh.
    cbn [bind]. apply IH, Hf.
Qed.

Lemma store_effects_ok (effects : list json) (m : effect_map) :
  forallb well_shaped_effect effects = true ->
  exists m', for_each effects store_effect m = Ok m'.
Proof.
  revert m. induction effects as [| e effects IH]; intros m He.
  - eexists; reflexivity.
  - cbn [forallb] in He. apply andb_prop in He. destruct He as [Hw He].
    destruct e as [| | | | | | em]; try discriminate.
    unfold well_shaped_effect in Hw. apply andb_prop in Hw. destruct Hw as [Hh Hf].
    cbn [for_each]. unfold store_effect at 1. cbn [py_get bind].
    destruct (item em "function_details" (JList [])) as [| | | | | funcs |];
      try discriminate.
    cbn [py_iter bind].
    destruct (store_functions_ok _ funcs m Hh Hf) as [m1 Hm1].
    rewrite Hm1. cbn [bind]. apply IH, He.
Qed.

Lemma accumulate_returns (response : json) :
  well_shaped response = true -> exists res, accumulate response = Ok res.
Proof.
  intros Hw. destruct response as [| | | | | | rm]; try discriminate.
  cbn [well_shaped] in Hw.
  destruct (item rm "data" (JDict [])) as [| | | | | | dm] eqn:Hdata; try discriminate.
  apply andb_prop in Hw. destruct Hw as [He Hc].
  destruct (item dm "state_effects" (JList [])) as [| | | | | effects |] eqn:Heff;
    try discriminate.
  destruct (item dm "character_details" (JList [JDict []])) as [| | | | | details |] eqn:Hdet;
    try discriminate.
  destruct details as [| [| | | | | | c] details]; try discriminate.
  destruct (store_effects_ok effects [] He) as [m Hm].
  assert (Hb : build_effect_map (JDict rm) = Ok m).
  { unfold build_effect_map. cbn [py_get bind].
    rewrite Hdata. cbn [py_get bind]. rewrite Heff. exact Hm. }
  assert (Hf : first_character (JDict rm) = Ok (JDict c)).
  { unfold first_character. cbn [py_get bind].
    rewrite Hdata. cbn [py_get bind]. now rewrite Hdet. }
  eexists. exact (accumulate_sum _ m c Hb Hf).
Qed.

(** On a well-shaped response the extractor returns, as long as the
    totals stay within the range of the division. *)
Lemma extractor_returns (response : json) :
  well_shaped response = true ->
  (forall res, accumulate response = Ok res ->
     Z.abs (attack res) < float_limit /\
     Z.abs (elemental_damage res) < float_limit /\
     Z.abs (max_ammo res) < float_limit) ->
  exists s, extract_stats_per_gear response = Ok s.
Proof.
  intros Hw Hrange. destruct (accumulate_returns response Hw) as [res Hres].
  destruct (Hrange res Hres) as (Ha & He & Hm).
  unfold extract_stats_per_gear.
  destruct (negb (truthy response)); [eexists; reflexivity |].
  rewrite Hres. cbn [bind].
  destruct (format_total_returns _ Ha) as (sa & -> & _).
  destruct (format_total_returns _ He) as (se & -> & _).
  destruct (format_total_returns _ Hm) as (sm & -> & _).
  eexists; reflexivity.
Qed.

(** Anomalies that do degrade: a magnitude that is not a number counts
    as 0, an effect without function details is skipped. *)
Example anomalies_that_degrade :
  function_value (Fixtures.func "StatAtk" "12.5") = 0 /\
  function_value (JDict [("function_type", JStr "StatAtk"); ("function_value", JNull)]) = 0 /\
  function_value (JDict [("function_type", JStr "StatAtk")]) = 0 /\
  extract_stats_per_gear
    (Fixtures.response (JList [JDict [("id", JStr "5")]])
                       (JList [JDict [("arm_equip_option1_id", JInt 5)]])) =
    Ok {| Attack := JStr "0.00"; ElementalDamage := JStr "0.00"; MaxAmmo := JStr "0.00" |}.
Proof. repeat split; reflexivity. Qed.

(** ** Responses without state effects *)

(** With a character record present, no state effect means three
    "0.00". *)
Lemma no_effects_all_zero (response data : json) (c : list (string * json)) :
  truthy response = true ->
  py_get response "data" (JDict []) = Ok data ->
  py_get data "state_effects" (JList []) = Ok (JList []) ->
  first_character response = Ok (JDict c) ->
  extract_stats_per_gear response =
    Ok {| Attack := JStr "0.00"; ElementalDamage := JStr "0.00"; MaxAmmo := JStr "0.00" |}.
Proof.
  intros Ht Hdata Heffects Hc.
  assert (Hm : build_effect_map response = Ok []).
  { unfold build_effect_map. rewrite Hdata. cbn [bind]. now rewrite Heffects. }
  unfold extract_stats_per_gear. rewrite Ht. cbn [negb].
  rewrite (accumulate_sum response [] c Hm Hc). reflexivity.
Qed.


(** ** The loaders *)

Lemma load_units_skips_malformed (rows1 rows2 : list row) (r : row) :
  raises (unit_of_row r) ->
  load_units_csv (rows1 ++ r :: rows2)%list = load_units_csv (rows1 ++ rows2)%list.
Proof.
  intros [e He]. unfold load_units_csv.
  rewrite !fold_left_app. cbn [fold_left]. now rewrite He.
Qed.

(** C9, at a registry line that lacks the UID field: the player loader
    raises, where the unit loader skips a row it cannot read. *)
Theorem players_loader_raises_on_short_row :
  load_players_csv [Fixtures.short_player_row] = Raise AttributeError /\
  load_units_csv [Fixtures.bad_unit_row; Fixtures.good_unit_row] = [(7, "Alpha")].
Proof. split; reflexivity. Qed.

(** The exception ends the run before any request is made. *)
Example short_row_aborts_main :
  main Fixtures.unreachable "cookie" [Fixtures.good_unit_row] [Fixtures.short_player_row]
  = Raise AttributeError.
Proof. reflexivity. Qed.

(** ** The driver *)




(** The two outcomes side by side: the failed fetch of unit 7 gives the
    marker row, the genuine zero stats of unit 9 give "0.00" cells. *)
Example failed_row_and_zero_row :
  out_rows <$> for_each [(7, "Alpha"); (9, "Beta")]
                 (process_pair Fixtures.flaky "cookie" Fixtures.alice) start
  = Ok [ {| row_Player := "Alice"; row_Unit := "Alpha"; row_Attack := JNull;
            row_ElementalDamage := JNull; row_MaxAmmo := JNull |};
         {| row_Player := "Alice"; row_Unit := "Beta"; row_Attack := JStr "0.00";
            row_ElementalDamage := JStr "0.00"; row_MaxAmmo := JStr "0.00" |} ].
Proof. reflexivity. Qed.

(** A whole run against an unreachable service: one marker row per
    pair, in order. *)
Example unreachable_run :
  main Fixtures.unreachable "cookie"
    [Fixtures.good_unit_row; Fixtures.bad_unit_row]
    [ [("Player", Some "Alice"); ("UID", Some "29080-X1")];
      [("Player", Some "Bob"); ("UID", Some "29080-X2")] ]
  = Ok [ {| row_Player := "Alice"; row_Unit := "Alpha"; row_Attack := JNull;
            row_ElementalDamage := JNull; row_MaxAmmo := JNull |};
         {| row_Player := "Bob"; row_Unit := "Alpha"; row_Attack := JNull;
            row_ElementalDamage := JNull; row_MaxAmmo := JNull |} ].
Proof. reflexivity. Qed.

(** C10: when the fetch succeeds and the response is falsy, or is an
    object whose ["code"] is absent or does not equal 0, the driver
    appends the failure row, and its calls for the pair are the fetch
    and the pause only: the extractor is not invoked. *)
Theorem bad_status_is_failure
  (post : nat -> string -> Z -> string -> http) (cookie : string)
  (p : player) (st : run) (name_code : Z) (unit_name : string)
  (resp : json) :
  post (S (step st)) (intl_open_id p) name_code cookie = Body resp ->
  (truthy resp = false \/
   exists members, resp = JDict members /\
     (assoc "code" members = None \/
      exists c, assoc "code" members = Some c /\ equals_zero c = false)) ->
  process_pair post cookie p st (name_code, unit_name) =
    Ok {| out_rows :=
            (out_rows st ++
             [ {| row_Player := Player p; row_Unit := unit_name;
                  row_Attack := JNull; row_ElementalDamage := JNull;
                  row_MaxAmmo := JNull |} ])%list;
          step := S (step st);
          calls := (calls st ++ [Fetched (intl_open_id p) name_code; Slept])%list |} /\
  forall r, ~ In (Extracted r) [Fetched (intl_open_id p) name_code; Slept].
Proof.
  intros Hpost Hcode. split.
  - unfold process_pair, call_character_details. rewrite Hpost.
    assert (Hu : usable resp = Ok false).
    { unfold usable. destruct Hcode as [-> | (members & -> & Hcode)]; [reflexivity |].
      destruct members as [| kv members']; [reflexivity |].
      cbn [truthy py_get bind]. unfold item.
      destruct Hcode as [-> | (c & -> & Hc)]; [reflexivity | now rewrite Hc]. }
    rewrite Hu. cbn [bind]. unfold failed_row. now rewrite <- app_assoc.
  - intros r [H | [H | []]]; discriminate.
Qed.

Lemma bad_status_is_failure_witness :
  process_pair Fixtures.refusing "cookie" Fixtures.alice start (7, "Alpha") =
    Ok {| out_rows :=
            [ {| row_Player := "Alice"; row_Unit := "Alpha";
                 row_Attack := JNull; row_ElementalDamage := JNull;
                 row_MaxAmmo := JNull |} ];
          step := 1%nat;
          calls := [Fetched "X1" 7; Slept] |} /\
  forall r, ~ In (Extracted r) [Fetched "X1" 7; Slept].
Proof.
  apply (bad_status_is_failure Fixtures.refusing "cookie" Fixtures.alice start
           7 "Alpha" (JDict Fixtures.refused)).
  - reflexivity.
  - right. exists Fixtures.refused. split; [reflexivity |].
    right. exists (JInt 1001). split; reflexivity.
Defined.

(** An object without ["code"] is a failure as well. *)
Example missing_code_is_failure :
  out_rows <$> process_pair (fun _ _ _ _ => Body Fixtures.null_data_no_code)
                 "cookie" Fixtures.alice start (7, "Alpha")
  = Ok [ {| row_Player := "Alice"; row_Unit := "Alpha"; row_Attack := JNull;
            row_ElementalDamage := JNull; row_MaxAmmo := JNull |} ].
Proof. reflexivity. Qed.

(** A response that is not an object has no [get]: the run stops. *)
Example list_response_aborts :
  process_pair (fun _ _ _ _ => Body (JList [JInt 1])) "cookie" Fixtures.alice
    start (7, "Alpha") = Raise AttributeError.
Proof. reflexivity. Qed.

(** * Further properties *)

(** ** The unit catalog *)

Lemma dict_get_set_same (k : Z) (v : string) (m : list (Z * string)) :
  dict_get k (dict_set k v m) = Some v.
Proof.
  induction m as [| [k' v'] m IH]; simpl.
  - now rewrite Z.eqb_refl.
  - destruct (k =? k') eqn:E; simpl; [now rewrite Z.eqb_refl | now rewrite E].
Qed.

Lemma dict_get_set_other (k k' : Z) (v : string) (m : list (Z * string)) :
  k' <> k -> dict_get k' (dict_set k v m) = dict_get k' m.
Proof.
  intros Hk. induction m as [| [k0 v0] m IH]; simpl.
  - destruct (k' =? k) eqn:E; [apply Z.eqb_eq in E; contradiction | reflexivity].
  - destruct (k =? k0) eqn:E; simpl.
    + apply Z.eqb_eq in E. subst k0.
      destruct (k' =? k) eqn:E'; [apply Z.eqb_eq in E'; contradiction | reflexivity].
    + destruct (k' =? k0); [reflexivity | exact IH].
Qed.

Lemma dict_set_keys (k k' : Z) (v : string) (m : list (Z * string)) :
  In k' (map fst (dict_set k v m)) <-> k' = k \/ In k' (map fst m).
Proof.
  induction m as [| [k0 v0] m IH]; simpl.
  - intuition.
  - destruct (k =? k0) eqn:E; simpl.
    + apply Z.eqb_eq in E. subst k0. intuition.
    + rewrite IH. intuition.
Qed.

Lemma dict_set_nodup (k : Z) (v : string) (m : list (Z * string)) :
  NoDup (map fst m) -> NoDup (map fst (dict_set k v m)).
Proof.
  induction m as [| [k0 v0] m IH]; simpl; intros Hnd.
  - constructor; [intros [] | constructor].
  - inversion Hnd as [| ? ? Hnot Hrest]; subst.
    destruct (k =? k0) eqn:E; simpl.
    + apply Z.eqb_eq in E. subst k0. now constructor.
    + apply Z.eqb_neq in E. constructor; [| now apply IH].
      rewrite dict_set_keys. intros [-> | Hin]; [now apply E | now apply Hnot].
Qed.

Lemma dict_get_in (k : Z) (m : list (Z * string)) :
  In k (map fst m) <-> exists v, dict_get k m = Some v.
Proof.
  induction m as [| [k0 v0] m IH]; simpl.
  - split; [intros [] | intros [v Hv]; discriminate].
  - destruct (k =? k0) eqn:E.
    + apply Z.eqb_eq in E. subst k0. split; [eauto | now left].
    + apply Z.eqb_neq in E. rewrite <- IH. split; [intros [H | H] | intros H].
      * now contradiction E.
      * exact H.
      * now right.
Qed.

Lemma load_units_fold (rows : list row) :
  load_units_csv rows = fold_left add_unit rows [].
Proof. reflexivity. Qed.

Lemma add_units_nodup (rows : list row) (m : list (Z * string)) :
  NoDup (map fst m) -> NoDup (map fst (fold_left add_unit rows m)).
Proof.
  revert m. induction rows as [| r rows IH]; intros m Hm; simpl; [exact Hm |].
  apply IH. unfold add_unit.
  destruct (unit_of_row r) as [[c n] | e]; [now apply dict_set_nodup | exact Hm].
Qed.

Lemma add_units_untouched (c : Z) (rows : list row) (m : list (Z * string)) :
  (forall r n, In r rows -> unit_of_row r <> Ok (c, n)) ->
  dict_get c (fold_left add_unit rows m) = dict_get c m.
Proof.
  revert m. induction rows as [| r rows IH]; intros m Hrows; simpl; [reflexivity |].
  rewrite IH by (intros r' n' Hin; apply Hrows; now right).
  unfold add_unit. destruct (unit_of_row r) as [[c' n'] | e] eqn:E; [| reflexivity].
  apply dict_get_set_other. intros ->. apply (Hrows r n'); [now left | exact E].
Qed.

Lemma add_units_origin (c : Z) (n : string) (rows : list row) (m : list (Z * string)) :
  dict_get c (fold_left add_unit rows m) = Some n ->
  dict_get c m = Some n \/ exists r, In r rows /\ unit_of_row r = Ok (c, n).
Proof.
  revert m. induction rows as [| r rows IH]; intros m H; simpl in H; [now left |].
  destruct (IH _ H) as [Hm | (r' & Hin & Hr')].
  - unfold add_unit in Hm. destruct (unit_of_row r) as [[c' n'] | e] eqn:E; [| now left].
    destruct (Z.eq_dec c c') as [-> | Hne].
    + rewrite dict_get_set_same in Hm. injection Hm as ->.
      right. exists r. split; [now left | exact E].
    + rewrite dict_get_set_other in Hm by exact Hne. now left.
  - right. exists r'. split; [now right | exact Hr'].
Qed.

(** X1: a row of the catalog that cannot be read (a missing column, an
    empty field, a code that is not an integer) changes nothing: the
    mapping is the one loaded from the other rows. *)
Theorem unreadable_unit_row_is_skipped (rows1 rows2 : list row) (r : row) :
  raises (unit_of_row r) ->
  load_units_csv (rows1 ++ r :: rows2)%list = load_units_csv (rows1 ++ rows2)%list.
Proof.
  intros [e He]. rewrite !load_units_fold, !fold_left_app. simpl.
  unfold add_unit at 2. now rewrite He.
Qed.

Lemma unreadable_unit_row_is_skipped_witness :
  raises (unit_of_row [("units/Name code", None); ("units/Name", Some "Beta")]) /\
  load_units_csv
    [ Fixtures.good_unit_row;
      [("units/Name code", None); ("units/Name", Some "Beta")];
      [("units/Name code", Some "9"); ("units/Name", Some "Gamma")] ] =
  load_units_csv
    [ Fixtures.good_unit_row;
      [("units/Name code", Some "9"); ("units/Name", Some "Gamma")] ].
Proof.
  assert (H : raises (unit_of_row [("units/Name code", None); ("units/Name", Some "Beta")])).
  { exists TypeError. reflexivity. }
  split; [exact H |].
  exact (unreadable_unit_row_is_skipped [Fixtures.good_unit_row]
           [[("units/Name code", Some "9"); ("units/Name", Some "Gamma")]]
           [("units/Name code", None); ("units/Name", Some "Beta")] H).
Defined.

(** X2: the loaded catalog holds every code once, whatever the rows
    repeat. *)
Theorem loaded_codes_are_distinct (rows : list row) :
  NoDup (map fst (load_units_csv rows)).
Proof.
  rewrite load_units_fold. apply add_units_nodup. constructor.
Qed.

(** X3: when a code occurs in several rows, the name of the last row
    that can be read is the one kept. *)
Theorem last_unit_row_wins (rows1 rows2 : list row) (r : row) (c : Z) (n : string) :
  unit_of_row r = Ok (c, n) ->
  (forall r' n', In r' rows2 -> unit_of_row r' <> Ok (c, n')) ->
  dict_get c (load_units_csv (rows1 ++ r :: rows2)%list) = Some n.
Proof.
  intros Hr Hrows2. rewrite load_units_fold, fold_left_app. simpl.
  rewrite (add_units_untouched c rows2 _ Hrows2).
  unfold add_unit at 1. rewrite Hr. apply dict_get_set_same.
Qed.

Lemma last_unit_row_wins_witness :
  dict_get 7
    (load_units_csv
       [ [("units/Name code", Some "7"); ("units/Name", Some "Old")];
         [("units/Name code", Some " +7 "); ("units/Name", Some " Alpha ")];
         [("units/Name code", Some "9"); ("units/Name", Some "Gamma")] ]) =
  Some "Alpha".
Proof.
  apply (last_unit_row_wins
           [[("units/Name code", Some "7"); ("units/Name", Some "Old")]]
           [[("units/Name code", Some "9"); ("units/Name", Some "Gamma")]]
           [("units/Name code", Some " +7 "); ("units/Name", Some " Alpha ")]
           7 "Alpha").
  - reflexivity.
  - intros r' n' [<- | []]. discriminate.
Defined.

(** X4: a code is in the loaded catalog exactly when some row reads as
    that code, and the name kept for it is the name of such a row. *)
Theorem loaded_units_come_from_rows (rows : list row) (c : Z) :
  (forall n, dict_get c (load_units_csv rows) = Some n ->
     exists r, In r rows /\ unit_of_row r = Ok (c, n)) /\
  (forall r n, In r rows -> unit_of_row r = Ok (c, n) ->
     exists n', dict_get c (load_units_csv rows) = Some n').
Proof.
  split.
  - intros n H. rewrite load_units_fold in H.
    destruct (add_units_origin c n rows [] H) as [Hm | Hr]; [discriminate | exact Hr].
  - intros r n Hin Hr. apply in_split in Hin. destruct Hin as (rows1 & rows2 & ->).
    rewrite load_units_fold, fold_left_app. simpl.
    apply dict_get_in.
    assert (Hkeep : forall rs m, In c (map fst m) ->
                                 In c (map fst (fold_left add_unit rs m))).
    { induction rs as [| r0 rs IH]; intros m Hm; simpl; [exact Hm |].
      apply IH. unfold add_unit.
      destruct (unit_of_row r0) as [[c0 n0] | e]; [| exact Hm].
      apply dict_set_keys. now right. }
    apply Hkeep. unfold add_unit at 1. rewrite Hr. apply dict_set_keys. now left.
Qed.

Lemma loaded_units_come_from_rows_witness :
  exists r,
    In r [Fixtures.bad_unit_row; Fixtures.good_unit_row] /\
    unit_of_row r = Ok (7, "Alpha").
Proof.
  apply (proj1 (loaded_units_come_from_rows
                  [Fixtures.bad_unit_row; Fixtures.good_unit_row] 7) "Alpha").
  reflexivity.
Defined.

(** ** Surrounding blanks *)

Lemma lstrip_head (sp : ascii -> bool) (s : string) :
  match lstrip sp s with
  | EmptyString => True
  | String c _ => sp c = false
  end.
Proof.
  induction s as [| c s IH]; simpl; [exact I |].
  destruct (sp c) eqn:E; [exact IH | exact E].
Qed.

Lemma lstrip_fixed (sp : ascii -> bool) (c : ascii) (s : string) :
  sp c = false -> lstrip sp (String c s) = String c s.
Proof. intros H. simpl. now rewrite H. Qed.

Lemma rstrip_head (sp : ascii -> bool) (c : ascii) (s : string) :
  sp c = false -> exists t, rstrip sp (String c s) = String c t.
Proof.
  intros H. simpl. destruct (rstrip sp s) as [| c' t].
  - rewrite H. now exists EmptyString.
  - now exists (String c' t).
Qed.

Lemma rstrip_cons (sp : ascii -> bool) (c : ascii) (s : string) :
  rstrip sp (String c s) =
  match rstrip sp s with
  | EmptyString => if sp c then EmptyString else str1 c
  | t => String c t
  end.
Proof. reflexivity. Qed.

Lemma rstrip_idem (sp : ascii -> bool) (s : string) :
  rstrip sp (rstrip sp s) = rstrip sp s.
Proof.
  induction s as [| c s IH]; [reflexivity |].
  rewrite rstrip_cons. destruct (rstrip sp s) as [| c' t] eqn:E.
  - destruct (sp c) eqn:Ec; [reflexivity |].
    unfold str1. rewrite rstrip_cons. simpl. now rewrite Ec.
  - rewrite rstrip_cons, IH. reflexivity.
Qed.

Lemma strip_idem (s t : string) : strip (Some s) = Ok t -> trimmed t.
Proof.
  unfold trimmed, strip. intros [= <-]. f_equal.
  pose proof (lstrip_head str_space s) as Hh.
  destruct (lstrip str_space s) as [| c u] eqn:E; [reflexivity |].
  destruct (rstrip_head str_space c u Hh) as [t Ht].
  rewrite Ht, (lstrip_fixed str_space c t Hh), <- Ht.
  apply rstrip_idem.
Qed.

(** X5: the names kept by the two loaders carry no surrounding blanks:
    stripping a loaded unit name or player name again changes
    nothing. *)
Theorem loaded_names_are_trimmed (units players : list row) :
  (forall c n, dict_get c (load_units_csv units) = Some n -> trimmed n) /\
  (forall ps p, load_players_csv players = Ok ps -> In p ps -> trimmed (Player p)).
Proof.
  split.
  - intros c n H. rewrite load_units_fold in H.
    destruct (add_units_origin c n units [] H) as [Hm | (r & _ & Hr)]; [discriminate |].
    unfold unit_of_row in Hr. bind_inv Hr. bind_inv Hr. bind_inv Hr. bind_inv Hr.
    injection Hr as _ <-.
    destruct a1 as [x |]; [exact (strip_idem x a2 Ha2) | discriminate Ha2].
  - unfold load_players_csv.
    assert (Hloop : forall rows acc ps,
               for_each rows (fun players r => p <- player_of_row r ;; Ok (players ++ [p])%list) acc = Ok ps ->
               (forall p, In p acc -> trimmed (Player p)) ->
               forall p, In p ps -> trimmed (Player p)).
    { induction rows as [| r rows IH]; intros acc ps H Hacc p Hp.
      - injection H as <-. now apply Hacc.
      - cbn [for_each] in H. bind_inv H. bind_inv Ha. injection Ha as <-.
        apply (IH _ _ H); [| exact Hp].
        intros p' Hp'. apply in_app_or in Hp'. destruct Hp' as [Hp' | [<- | []]].
        + now apply Hacc.
        + unfold player_of_row in Ha0.
          bind_inv Ha0. bind_inv Ha0. bind_inv Ha0. bind_inv Ha0.
          injection Ha0 as <-. cbn [Player].
          destruct a2 as [x |]; [exact (strip_idem x a3 Ha3) | discriminate Ha3]. }
    intros ps p H Hp. exact (Hloop players [] ps H (fun p' (F : In p' []) => match F with end) p Hp).
Qed.

Lemma loaded_names_are_trimmed_witness : trimmed "Alpha".
Proof.
  apply (proj1 (loaded_names_are_trimmed
                  [[("units/Name code", Some "7"); ("units/Name", Some "  Alpha ")]] [])
               7 "Alpha").
  reflexivity.
Defined.

(** ** The player registry *)

Lemma players_loop (rows : list row) (acc ps : list player) :
  for_each rows (fun players r => p <- player_of_row r ;; Ok (players ++ [p])%list) acc
    = Ok ps <->
  exists ps', ps = (acc ++ ps')%list /\
              Forall2 (fun r p => player_of_row r = Ok p) rows ps'.
Proof.
  revert acc. induction rows as [| r rows IH]; intros acc; cbn [for_each].
  - split.
    + intros [= <-]. exists []. split; [now rewrite app_nil_r | constructor].
    + intros (ps' & -> & H). inversion H. now rewrite app_nil_r.
  - split.
    + intros H. bind_inv H. bind_inv Ha. injection Ha as <-.
      apply IH in H. destruct H as (ps' & -> & H).
      exists (a0 :: ps'). split; [now rewrite <- app_assoc | now constructor].
    + intros (ps' & -> & H). inversion H as [| ? p ? ps'' Hr Hrest]; subst.
      rewrite Hr. cbn [bind]. apply IH. exists ps''.
      split; [now rewrite <- app_assoc | exact Hrest].
Qed.

(** X6: the registry is loaded row by row: the load succeeds exactly
    when every row can be read, and then it yields one player per row,
    in the order of the rows, repeated rows included. *)
Theorem players_are_loaded_row_by_row (rows : list row) (ps : list player) :
  load_players_csv rows = Ok ps <->
  Forall2 (fun r p => player_of_row r = Ok p) rows ps.
Proof.
  unfold load_players_csv. rewrite players_loop. split.
  - intros (ps' & -> & H). exact H.
  - intros H. now exists ps.
Qed.

(** X7: the first row of the registry that cannot be read ends the
    load with its exception, whatever the rows after it hold. *)
Theorem first_unreadable_player_row_raises (good rest : list row) (bad : row)
  (ps : list player) (e : exn) :
  load_players_csv good = Ok ps ->
  player_of_row bad = Raise e ->
  load_players_csv (good ++ bad :: rest)%list = Raise e.
Proof.
  unfold load_players_csv. intros Hgood Hbad.
  rewrite for_each_app, Hgood. cbn [bind for_each]. now rewrite Hbad.
Qed.

Lemma first_unreadable_player_row_raises_witness :
  load_players_csv
    [ [("Player", Some "Alice"); ("UID", Some "29080-X1")];
      [("Player", Some "Bob")];
      [("Player", Some "Carol"); ("UID", Some "29080-X3")] ] = Raise KeyError.
Proof.
  apply (first_unreadable_player_row_raises
           [[("Player", Some "Alice"); ("UID", Some "29080-X1")]]
           [[("Player", Some "Carol"); ("UID", Some "29080-X3")]]
           [("Player", Some "Bob")]
           [ {| Player := "Alice"; intl_open_id := "X1" |} ] KeyError);
    reflexivity.
Defined.

Lemma contains_app (q : ascii) (s t : string) :
  contains q (s ++ t) = contains q s || contains q t.
Proof.
  induction s as [| c s IH]; simpl; [reflexivity |].
  now rewrite IH, orb_assoc.
Qed.

Lemma append_nil_r (s : string) : s ++ "" = s.
Proof. induction s as [| c s IH]; simpl; [reflexivity | now rewrite IH]. Qed.

Lemma last_segment_no_dash (s cur : string) :
  contains "-" cur = false -> contains "-" (last_segment s cur) = false.
Proof.
  revert cur. induction s as [| c s IH]; intros cur Hcur; simpl; [exact Hcur |].
  destruct (Ascii.eqb c "-") eqn:E.
  - now apply IH.
  - apply IH. rewrite contains_app, Hcur. simpl. now rewrite E.
Qed.

Lemma last_segment_split (s cur : string) :
  (contains "-" s = false /\ last_segment s cur = cur ++ s) \/
  (exists pre, s = pre ++ "-" ++ last_segment s cur).
Proof.
  revert cur. induction s as [| c s IH]; intros cur; simpl.
  - left. split; [reflexivity | now rewrite append_nil_r].
  - destruct (Ascii.eqb c "-") eqn:E.
    + apply Ascii.eqb_eq in E. subst c. right.
      destruct (IH EmptyString) as [[_ Hs] | [pre Hpre]].
      * exists EmptyString. simpl. now rewrite Hs.
      * exists (String "-" pre). simpl. f_equal. exact Hpre.
    + destruct (IH (cur ++ str1 c)) as [[Hno Hs] | [pre Hpre]].
      * left. split; [exact Hno |]. rewrite Hs, append_assoc. reflexivity.
      * right. exists (String c pre). simpl. f_equal. exact Hpre.
Qed.

(** X8: the account id of a loaded player is what follows the last
    dash of the stripped UID (the whole UID when it has no dash), and
    holds no dash itself. *)
Theorem account_id_follows_last_dash (r : row) (p : player) :
  player_of_row r = Ok p ->
  exists uid,
    (u <- row_item r "UID" ;; strip u) = Ok uid /\
    contains "-" (intl_open_id p) = false /\
    ((contains "-" uid = false /\ intl_open_id p = uid) \/
     exists pre, uid = pre ++ "-" ++ intl_open_id p).
Proof.
  unfold player_of_row. intros H. bind_inv H. bind_inv H. bind_inv H. bind_inv H.
  injection H as <-. cbn [intl_open_id]. exists a0.
  split; [now rewrite Ha |].
  split; [now apply last_segment_no_dash |].
  exact (last_segment_split a0 EmptyString).
Qed.

Lemma account_id_follows_last_dash_witness :
  exists uid,
    (u <- row_item [("Player", Some "Alice"); ("UID", Some " 29080-12-X1 ")] "UID" ;;
     strip u) = Ok uid /\
    contains "-" "X1" = false /\
    ((contains "-" uid = false /\ "X1" = uid) \/ exists pre, uid = pre ++ "-" ++ "X1").
Proof.
  apply (account_id_follows_last_dash
           [("Player", Some "Alice"); ("UID", Some " 29080-12-X1 ")]
           {| Player := "Alice"; intl_open_id := "X1" |}).
  reflexivity.
Defined.

(** ** The extractor: what its output depends on *)

Lemma add_totals_comm (s t : totals) : add_totals s t = add_totals t s.
Proof. unfold add_totals. f_equal; lia. Qed.

Lemma sum_totals_perm (l l' : list totals) :
  Permutation l l' -> sum_totals l = sum_totals l'.
Proof.
  induction 1 as [| t l l' _ IH | s t l | l l' l'' _ IH1 _ IH2].
  - reflexivity.
  - now rewrite !sum_totals_cons, IH.
  - rewrite !sum_totals_cons, <- !add_totals_assoc.
    now rewrite (add_totals_comm t s).
  - now rewrite IH1.
Qed.

Lemma extract_from_totals (r1 r2 : json) :
  truthy r1 = true -> truthy r2 = true ->
  accumulate r1 = accumulate r2 ->
  extract_stats_per_gear r1 = extract_stats_per_gear r2.
Proof.
  intros H1 H2 Hacc. unfold extract_stats_per_gear. now rewrite H1, H2, Hacc.
Qed.

(** X9: only the first character record counts: two responses with the
    same state effects and the same first record give the same result,
    whatever records follow. *)
Theorem only_first_character_is_read (r1 r2 d1 d2 first : json)
  (rest1 rest2 : list json) :
  truthy r1 = true -> truthy r2 = true ->
  py_get r1 "data" (JDict []) = Ok d1 ->
  py_get r2 "data" (JDict []) = Ok d2 ->
  py_get d1 "state_effects" (JList []) = py_get d2 "state_effects" (JList []) ->
  py_get d1 "character_details" (JList [JDict []]) = Ok (JList (first :: rest1)) ->
  py_get d2 "character_details" (JList [JDict []]) = Ok (JList (first :: rest2)) ->
  extract_stats_per_gear r1 = extract_stats_per_gear r2.
Proof.
  intros Ht1 Ht2 Hd1 Hd2 Heff Hc1 Hc2.
  apply extract_from_totals; [exact Ht1 | exact Ht2 |].
  unfold accumulate, build_effect_map, first_character.
  rewrite Hd1, Hd2. cbn [bind]. rewrite Heff, Hc1, Hc2. reflexivity.
Qed.

Lemma only_first_character_is_read_witness :
  extract_stats_per_gear Fixtures.one_slot =
  extract_stats_per_gear
    (Fixtures.response
       (JList [Fixtures.effect (JStr "5") [Fixtures.func "StatAtk" "1000"]])
       (JList [JDict [("arm_equip_option1_id", JStr "5")];
               JDict [("leg_equip_option1_id", JStr "5")];
               JNull])).
Proof.
  apply (only_first_character_is_read _ _
           (JDict [("state_effects",
                    JList [Fixtures.effect (JStr "5") [Fixtures.func "StatAtk" "1000"]]);
                   ("character_details",
                    JList [JDict [("arm_equip_option1_id", JStr "5")]])])
           (JDict [("state_effects",
                    JList [Fixtures.effect (JStr "5") [Fixtures.func "StatAtk" "1000"]]);
                   ("character_details",
                    JList [JDict [("arm_equip_option1_id", JStr "5")];
                           JDict [("leg_equip_option1_id", JStr "5")];
                           JNull])])
           (JDict [("arm_equip_option1_id", JStr "5")])
           [] [JDict [("leg_equip_option1_id", JStr "5")]; JNull]);
    reflexivity.
Defined.

(** X10: which slot holds a reference does not matter: two character
    records whose twelve references are the same up to their order
    give the same result against the same descriptor table. *)
Theorem slot_order_is_irrelevant (r1 r2 : json) (m : effect_map)
  (c1 c2 : list (string * json)) :
  truthy r1 = true -> truthy r2 = true ->
  build_effect_map r1 = Ok m -> build_effect_map r2 = Ok m ->
  first_character r1 = Ok (JDict c1) -> first_character r2 = Ok (JDict c2) ->
  Permutation (slot_refs c1) (slot_refs c2) ->
  extract_stats_per_gear r1 = extract_stats_per_gear r2.
Proof.
  intros Ht1 Ht2 Hm1 Hm2 Hc1 Hc2 Hperm.
  apply extract_from_totals; [exact Ht1 | exact Ht2 |].
  rewrite (accumulate_sum r1 m c1 Hm1 Hc1), (accumulate_sum r2 m c2 Hm2 Hc2).
  f_equal. apply sum_totals_perm, Permutation_map, Hperm.
Qed.

Lemma slot_order_is_irrelevant_witness :
  extract_stats_per_gear Fixtures.one_slot =
  extract_stats_per_gear
    (Fixtures.response
       (JList [Fixtures.effect (JStr "5") [Fixtures.func "StatAtk" "1000"]])
       (JList [JDict [("torso_equip_option3_id", JInt 5)]])).
Proof.
  apply (slot_order_is_irrelevant _ _
           [(JStr "5", (JStr "StatAtk", 1000))]
           [("arm_equip_option1_id", JStr "5")]
           [("torso_equip_option3_id", JInt 5)]); try reflexivity.
  change (Permutation
            ("5" :: repeat "None" 11)
            (repeat "None" 11 ++ ["5"])%list).
  apply Permutation_cons_append.
Defined.

Lemma map_find_app (eid : string) (delta m : effect_map) :
  map_find eid (delta ++ m)%list =
  match map_find eid delta with
  | Some d => Some d
  | None => map_find eid m
  end.
Proof.
  induction delta as [| [k d] delta IH]; simpl; [reflexivity |].
  destruct (is_str eid k); [reflexivity | exact IH].
Qed.

Lemma store_functions_delta (k : json) (funcs : list json) (m m' : effect_map) :
  for_each funcs (store_function k) m = Ok m' ->
  exists delta,
    m' = (delta ++ m)%list /\
    Forall (fun kd => fst kd = k) delta /\
    forall m2, for_each funcs (store_function k) m2 = Ok (delta ++ m2)%list.
Proof.
  revert m m'. induction funcs as [| func funcs IH]; intros m m' H.
  - injection H as <-. exists [].
    split; [reflexivity | split; [constructor | reflexivity]].
  - cbn [for_each] in H. bind_inv H. rename a into m1.
    pose proof Ha as Hstore. apply store_function_inv in Ha.
    destruct Ha as (d & Hd & ->).
    destruct (IH _ _ H) as (delta & -> & Hkeys & Hany).
    exists (delta ++ [(k, d)])%list. split; [now rewrite <- app_assoc | split].
    + apply Forall_app. split; [exact Hkeys | now repeat constructor].
    + intros m2. cbn [for_each].
      assert (Hm2 : store_function k m2 func = Ok ((k, d) :: m2)).
      { unfold store_function in Hstore |- *.
        destruct (py_get func "function_type" JNull) as [ftype | e]; [| discriminate].
        cbn [bind] in Hstore |- *.
        destruct (hashable k); [| discriminate].
        injection Hstore as <-. reflexivity. }
      rewrite Hm2. cbn [bind]. rewrite Hany. now rewrite <- app_assoc.
Qed.

Lemma store_effects_delta (effects : list json) (m m' : effect_map) :
  for_each effects store_effect m = Ok m' ->
  exists delta,
    m' = (delta ++ m)%list /\
    forall m2, for_each effects store_effect m2 = Ok (delta ++ m2)%list.
Proof.
  revert m m'. induction effects as [| e effects IH]; intros m m' H.
  - injection H as <-. exists []. split; reflexivity.
  - cbn [for_each] in H. bind_inv H. rename a into m1.
    unfold store_effect in Ha. bind_inv Ha. bind_inv Ha. bind_inv Ha.
    destruct (store_functions_delta _ _ _ _ Ha) as (d1 & -> & _ & Hany1).
    destruct (IH _ _ H) as (d2 & -> & Hany2).
    exists (d2 ++ d1)%list. split; [now rewrite <- app_assoc |].
    intros m2. cbn [for_each]. unfold store_effect at 1.
    rewrite Ha0, Ha1. cbn [bind]. rewrite Ha2. cbn [bind].
    rewrite Hany1. cbn [bind]. rewrite Hany2. now rewrite <- app_assoc.
Qed.

Lemma map_find_foreign (eid : string) (k : json) (delta : effect_map) :
  (forall s, k <> JStr s) ->
  Forall (fun kd => fst kd = k) delta ->
  map_find eid delta = None.
Proof.
  intros Hk. induction 1 as [| [k' d] delta Hhead _ IH]; simpl; [reflexivity |].
  simpl in Hhead. subst k'. now rewrite (is_str_other eid k (Hk eid)).
Qed.

Lemma slots_by_lookup (m m' : effect_map) (character : json) (keys : list string)
  (res : totals) :
  (forall eid, map_find eid m = map_find eid m') ->
  for_each keys (add_slot m character) res =
  for_each keys (add_slot m' character) res.
Proof.
  intros Hsame. revert res. induction keys as [| key keys IH]; intros res.
  - reflexivity.
  - cbn [for_each]. unfold add_slot at 1 3.
    destruct (slot_ref character key) as [eid | e]; [| reflexivity].
    cbn [bind]. rewrite Hsame. apply IH.
Qed.

(** X11: an effect entry whose id is not text (a JSON number, [null],
    a boolean) can never be matched by a slot, since slots are looked
    up as text: a response gives the same result with the entry
    removed. *)
Theorem entry_with_non_text_id_is_inert (r1 r2 d1 d2 : json)
  (pre post : list json) (entry k : json) (s : stats) :
  truthy r1 = true -> truthy r2 = true ->
  py_get r1 "data" (JDict []) = Ok d1 ->
  py_get r2 "data" (JDict []) = Ok d2 ->
  py_get d1 "state_effects" (JList []) = Ok (JList (pre ++ entry :: post)) ->
  py_get d2 "state_effects" (JList []) = Ok (JList (pre ++ post)) ->
  py_get d1 "character_details" (JList [JDict []]) =
    py_get d2 "character_details" (JList [JDict []]) ->
  py_get entry "id" JNull = Ok k ->
  (forall t, k <> JStr t) ->
  extract_stats_per_gear r1 = Ok s ->
  extract_stats_per_gear r2 = Ok s.
Proof.
  intros Ht1 Ht2 Hd1 Hd2 He1 He2 Hc Hid Hk H.
  rewrite <- H. symmetry. apply extract_from_totals; [exact Ht1 | exact Ht2 |].
  unfold extract_stats_per_gear in H. rewrite Ht1 in H. cbn [negb] in H.
  bind_inv H. clear H. rename a into res, Ha into Hacc.
  rewrite Hacc. unfold accumulate in Hacc |- *.
  bind_inv Hacc. rename a into m, Ha into Hm. bind_inv Hacc.
  rename a into character, Ha into Hch.
  assert (Hch2 : first_character r2 = Ok character).
  { unfold first_character in Hch |- *. rewrite Hd1 in Hch. rewrite Hd2.
    cbn [bind] in Hch |- *. now rewrite <- Hc. }
  unfold build_effect_map in Hm |- *. rewrite Hd1 in Hm. rewrite Hd2.
  cbn [bind] in Hm |- *. rewrite He1 in Hm. rewrite He2.
  cbn [bind py_iter] in Hm |- *.
  rewrite for_each_app in Hm |- *. bind_inv Hm. rename a into m0, Ha into Hpre.
  rewrite Hpre. cbn [bind for_each] in Hm |- *.
  bind_inv Hm. rename a into m1, Ha into Hentry.
  unfold store_effect in Hentry. rewrite Hid in Hentry. cbn [bind] in Hentry.
  bind_inv Hentry. bind_inv Hentry.
  destruct (store_functions_delta _ _ _ _ Hentry) as (delta1 & -> & Hkeys & _).
  destruct (store_effects_delta _ _ _ Hm) as (delta2 & -> & Hany).
  rewrite (Hany m0). cbn [bind]. rewrite Hch2. cbn [bind].
  rewrite <- Hacc. apply slots_by_lookup. intros eid.
  rewrite !map_find_app, (map_find_foreign eid k delta1 Hk Hkeys). reflexivity.
Qed.

Lemma entry_with_non_text_id_is_inert_witness :
  extract_stats_per_gear
    (Fixtures.response
       (JList [Fixtures.effect (JStr "5") [Fixtures.func "StatAtk" "1000"]])
       (JList [JDict [("arm_equip_option1_id", JInt 5);
                      ("leg_equip_option1_id", JInt 6)]])) =
  Ok {| Attack := JStr "10.00"; ElementalDamage := JStr "0.00"; MaxAmmo := JStr "0.00" |}.
Proof.
  apply (entry_with_non_text_id_is_inert
           (Fixtures.response
              (JList [Fixtures.effect (JStr "5") [Fixtures.func "StatAtk" "1000"];
                      Fixtures.effect (JInt 6) [Fixtures.func "StatAtk" "700"]])
              (JList [JDict [("arm_equip_option1_id", JInt 5);
                             ("leg_equip_option1_id", JInt 6)]]))
           _
           (JDict [("state_effects",
                    JList [Fixtures.effect (JStr "5") [Fixtures.func "StatAtk" "1000"];
                           Fixtures.effect (JInt 6) [Fixtures.func "StatAtk" "700"]]);
                   ("character_details",
                    JList [JDict [("arm_equip_option1_id", JInt 5);
                                  ("leg_equip_option1_id", JInt 6)]])])
           (JDict [("state_effects",
                    JList [Fixtures.effect (JStr "5") [Fixtures.func "StatAtk" "1000"]]);
                   ("character_details",
                    JList [JDict [("arm_equip_option1_id", JInt 5);
                                  ("leg_equip_option1_id", JInt 6)]])])
           [Fixtures.effect (JStr "5") [Fixtures.func "StatAtk" "1000"]] []
           (Fixtures.effect (JInt 6) [Fixtures.func "StatAtk" "700"])
           (JInt 6)); try reflexivity.
  intros t. discriminate.
Defined.

Lemma untracked_contribution (m : effect_map) (eid : string) :
  (forall ftype val, map_find eid m = Some (ftype, val) -> tracked ftype = false) ->
  contribution m eid = zero_totals.
Proof.
  intros H. unfold contribution.
  destruct (map_find eid m) as [[ftype val] |]; [| reflexivity].
  specialize (H ftype val eq_refl). unfold tracked in H.
  apply orb_false_elim in H. destruct H as [H H3].
  apply orb_false_elim in H. destruct H as [H1 H2].
  simpl. now rewrite H1, H2, H3.
Qed.

Lemma sum_of_zeros (l : list totals) :
  Forall (fun t => t = zero_totals) l -> sum_totals l = zero_totals.
Proof.
  induction 1 as [| t l -> _ IH]; [reflexivity |].
  now rewrite sum_totals_cons, IH.
Qed.

(** X12: when no slot reference finds a descriptor of one of the three
    tracked kinds (the reference is not in the table, or the effect
    has another function type), the result is "0.00" three times. *)
Theorem nothing_tracked_gives_zeros (response : json) (m : effect_map)
  (c : list (string * json)) :
  truthy response = true ->
  build_effect_map response = Ok m ->
  first_character response = Ok (JDict c) ->
  (forall key ftype val,
      In key gear_keys ->
      map_find (slot_text c key) m = Some (ftype, val) ->
      tracked ftype = false) ->
  extract_stats_per_gear response =
    Ok {| Attack := JStr "0.00"; ElementalDamage := JStr "0.00"; MaxAmmo := JStr "0.00" |}.
Proof.
  intros Ht Hm Hc Hnone. unfold extract_stats_per_gear. rewrite Ht. cbn [negb].
  rewrite (accumulate_sum response m c Hm Hc).
  rewrite sum_of_zeros; [reflexivity |].
  apply Forall_forall. intros t Hin. unfold slot_refs in Hin.
  rewrite map_map in Hin. apply in_map_iff in Hin. destruct Hin as (key & <- & Hkey).
  apply untracked_contribution. intros ftype val. now apply Hnone.
Qed.

Lemma nothing_tracked_gives_zeros_witness :
  extract_stats_per_gear
    (Fixtures.response
       (JList [Fixtures.effect (JStr "5") [Fixtures.func "StatDef" "1000"];
               Fixtures.effect (JStr "6") [Fixtures.func "StatAtk" "300"]])
       (JList [JDict [("arm_equip_option1_id", JStr "5");
                      ("arm_equip_option2_id", JStr "8")]])) =
    Ok {| Attack := JStr "0.00"; ElementalDamage := JStr "0.00"; MaxAmmo := JStr "0.00" |}.
Proof.
  apply (nothing_tracked_gives_zeros _
           [(JStr "6", (JStr "StatAtk", 300)); (JStr "5", (JStr "StatDef", 1000))]
           [("arm_equip_option1_id", JStr "5"); ("arm_equip_option2_id", JStr "8")]);
    try reflexivity.
  intros key ftype val Hkey.
  repeat (destruct Hkey as [<- | Hkey];
          [cbn; intros [= <- _]; reflexivity || discriminate |]).
  destruct Hkey.
Defined.

(** X13: a response without state-effect entries whose first character
    record is an object gives "0.00" three times. *)
Theorem no_effects_with_character_gives_zeros (response data : json)
  (c : list (string * json)) :
  truthy response = true ->
  py_get response "data" (JDict []) = Ok data ->
  py_get data "state_effects" (JList []) = Ok (JList []) ->
  first_character response = Ok (JDict c) ->
  extract_stats_per_gear response =
    Ok {| Attack := JStr "0.00"; ElementalDamage := JStr "0.00"; MaxAmmo := JStr "0.00" |}.
Proof. exact (no_effects_all_zero response data c). Qed.

Lemma no_effects_with_character_gives_zeros_witness :
  extract_stats_per_gear
    (Fixtures.response (JList [])
       (JList [JDict [("arm_equip_option1_id", JStr "5")]])) =
    Ok {| Attack := JStr "0.00"; ElementalDamage := JStr "0.00"; MaxAmmo := JStr "0.00" |}.
Proof.
  apply (no_effects_with_character_gives_zeros _
           (JDict [("state_effects", JList []);
                   ("character_details",
                    JList [JDict [("arm_equip_option1_id", JStr "5")]])])
           [("arm_equip_option1_id", JStr "5")]); reflexivity.
Defined.

(** X14: whatever the extractor returns for a response that is not
    falsy is three texts, each ending in a point and two digits. *)
Theorem returned_cells_have_two_decimals (response : json) (s : stats) :
  truthy response = true ->
  extract_stats_per_gear response = Ok s ->
  exists a e m,
    s = {| Attack := JStr a; ElementalDamage := JStr e; MaxAmmo := JStr m |} /\
    two_decimals a /\ two_decimals e /\ two_decimals m.
Proof.
  intros Ht H. unfold extract_stats_per_gear in H. rewrite Ht in H.
  cbn [negb] in H. bind_inv H. bind_inv H. bind_inv H. bind_inv H.
  injection H as <-. exists a0, a1, a2.
  split; [reflexivity |].
  split; [exact (format_total_two_decimals _ _ Ha0) |].
  split; [exact (format_total_two_decimals _ _ Ha1) |
          exact (format_total_two_decimals _ _ Ha2)].
Qed.

Lemma returned_cells_have_two_decimals_witness :
  exists a e m,
    {| Attack := JStr "10.00"; ElementalDamage := JStr "0.00"; MaxAmmo := JStr "0.00" |} =
    {| Attack := JStr a; ElementalDamage := JStr e; MaxAmmo := JStr m |} /\
    two_decimals a /\ two_decimals e /\ two_decimals m.
Proof.
  apply (returned_cells_have_two_decimals Fixtures.one_slot); reflexivity.
Defined.

(** ** The extractor: where it is sure to return *)





(** ** The range of the division *)

Lemma rne_ge (num den bound : Z) :
  0 < den -> den * bound <= num -> bound <= rne num den.
Proof.
  intros Hden Hnum. unfold rne.
  assert (Hq : bound <= num / den) by (apply Z.div_le_lower_bound; lia).
  destruct (2 * (num mod den) <? den); [lia |].
  destruct (den <? 2 * (num mod den)); [lia |].
  destruct (Z.even (num / den)); lia.
Qed.

Lemma exponent_bounds (a : Z) :
  0 < a ->
  let e := Z.log2 (a * 2 ^ 64 / 100) - 64 - 52 in
  100 * 2 ^ (e + 116) <= a * 2 ^ 64 < 100 * 2 ^ (e + 117).
Proof.
  intros Ha e.
  set (X := a * 2 ^ 64 / 100) in *.
  assert (HX : 0 < X).
  { apply Z.div_str_pos. change (2 ^ 64) with 18446744073709551616. lia. }
  pose proof (Z.log2_spec X HX) as [Hlo Hhi].
  pose proof (Z.mod_pos_bound (a * 2 ^ 64) 100 ltac:(lia)) as Hr.
  pose proof (Z.div_mod (a * 2 ^ 64) 100 ltac:(lia)) as Hdm.
  fold X in Hdm.
  replace (e + 116) with (Z.log2 X) by (unfold e; lia).
  replace (e + 117) with (Z.succ (Z.log2 X)) by (unfold e; lia).
  lia.
Qed.

Lemma mantissa_bounds (a e : Z) :
  0 <= e ->
  100 * 2 ^ (e + 116) <= a * 2 ^ 64 < 100 * 2 ^ (e + 117) ->
  100 * 2 ^ e * 2 ^ 52 <= a < 100 * 2 ^ e * 2 ^ 53.
Proof.
  intros He [Hlo Hhi].
  replace (e + 116) with (e + 52 + 64) in Hlo by lia.
  replace (e + 117) with (e + 53 + 64) in Hhi by lia.
  rewrite !Z.pow_add_r in Hlo, Hhi by lia.
  pose proof (Z.pow_pos_nonneg 2 64 ltac:(lia) ltac:(lia)) as H64.
  pose proof (Z.pow_pos_nonneg 2 e ltac:(lia) He) as Hpe.
  split; nia.
Qed.

Lemma overflow_test (a : Z) :
  0 < a ->
  let '(m, e) := nearest_double a 100 in
  (0 <=? e) && (2 ^ 1024 <=? m * 2 ^ e) = (overflow_limit <=? a).
Proof.
  intros Ha. unfold nearest_double.
  pose proof (exponent_bounds a Ha) as Hb. cbv zeta in Hb.
  set (e := Z.log2 (a * 2 ^ 64 / 100) - 64 - 52) in *.
  destruct (e <? 0) eqn:Eneg.
  - apply Z.ltb_lt in Eneg.
    assert (E0 : (0 <=? e) = false) by (apply Z.leb_gt; lia).
    rewrite E0. cbn [andb]. symmetry. apply Z.leb_gt.
    destruct Hb as [_ Hhi].
    assert (Hp : 2 ^ (e + 117) <= 2 ^ 116) by (apply Z.pow_le_mono_r; lia).
    assert (Hc : 100 * 2 ^ 116 < overflow_limit * 2 ^ 64) by (vm_compute; reflexivity).
    pose proof (Z.pow_pos_nonneg 2 64 ltac:(lia) ltac:(lia)) as H64.
    nia.
  - apply Z.ltb_ge in Eneg.
    assert (E0 : (0 <=? e) = true) by (apply Z.leb_le; lia).
    rewrite E0. cbn [andb].
    pose proof (mantissa_bounds a e Eneg Hb) as [Hlo Hhi].
    pose proof (Z.pow_pos_nonneg 2 e ltac:(lia) Eneg) as Hpe.
    pose proof (rne_ge a (100 * 2 ^ e) (2 ^ 52) ltac:(lia) ltac:(lia)) as Hm1.
    pose proof (rne_le a (100 * 2 ^ e) (2 ^ 53) ltac:(lia) ltac:(lia)) as Hm2.
    assert (Hcase : e <= 970 \/ e = 971 \/ 972 <= e) by lia.
    destruct Hcase as [Hs | [He | Hl]].
    + assert (Hp : 2 ^ e <= 2 ^ 970) by (apply Z.pow_le_mono_r; lia).
      assert (Hc1 : 2 ^ 53 * 2 ^ 970 < 2 ^ 1024) by (vm_compute; reflexivity).
      assert (Hc2 : 100 * 2 ^ 970 * 2 ^ 53 < overflow_limit) by (vm_compute; reflexivity).
      assert (Hl1 : (2 ^ 1024 <=? rne a (100 * 2 ^ e) * 2 ^ e) = false).
      { apply Z.leb_gt.
        assert (rne a (100 * 2 ^ e) * 2 ^ e <= 2 ^ 53 * 2 ^ 970)
          by (apply Z.mul_le_mono_nonneg; lia).
        lia. }
      rewrite Hl1. symmetry. apply Z.leb_gt.
      assert (100 * 2 ^ e * 2 ^ 53 <= 100 * 2 ^ 970 * 2 ^ 53) by nia. lia.
    + clearbody e. subst e. clear Hm1 Hm2 Hpe Hb E0 Eneg.
      unfold overflow_limit, rne.
      pose proof (Z.div_mod a (100 * 2 ^ 971) ltac:(lia)) as Hdm.
      pose proof (Z.mod_pos_bound a (100 * 2 ^ 971) ltac:(lia)) as Hr.
      set (q := a / (100 * 2 ^ 971)) in *.
      set (r := a mod (100 * 2 ^ 971)) in *.
      assert (Hq : 2 ^ 52 <= q <= 2 ^ 53 - 1) by lia.
      destruct (Z.leb_spec (100 * (2 ^ 1024 - 2 ^ 970)) a) as [Ho | Ho].
      * assert (Hq' : q = 2 ^ 53 - 1) by lia.
        destruct (Z.ltb_spec (2 * r) (100 * 2 ^ 971)) as [H1 | H1]; [lia |].
        destruct (Z.ltb_spec (100 * 2 ^ 971) (2 * r)) as [H2 | H2];
          [| rewrite Hq'; change (Z.even (2 ^ 53 - 1)) with false; cbv iota];
          apply Z.leb_le; lia.
      * apply Z.leb_gt.
        destruct (Z.ltb_spec (2 * r) (100 * 2 ^ 971)) as [H1 | H1]; [lia |].
        assert (Hq' : q <= 2 ^ 53 - 2) by lia.
        destruct (Z.ltb_spec (100 * 2 ^ 971) (2 * r)) as [H2 | H2];
          [| destruct (Z.even q)]; lia.
    + assert (Hp : 2 ^ 972 <= 2 ^ e) by (apply Z.pow_le_mono_r; lia).
      assert (Hc1 : 2 ^ 52 * 2 ^ 972 = 2 ^ 1024) by (vm_compute; reflexivity).
      assert (Hc2 : overflow_limit <= 100 * 2 ^ 972 * 2 ^ 52) by (vm_compute; discriminate).
      assert (Hl1 : (2 ^ 1024 <=? rne a (100 * 2 ^ e) * 2 ^ e) = true).
      { apply Z.leb_le. rewrite <- Hc1.
        apply Z.mul_le_mono_nonneg; lia. }
      rewrite Hl1. symmetry. apply Z.leb_le.
      assert (100 * 2 ^ 972 * 2 ^ 52 <= 100 * 2 ^ e * 2 ^ 52) by nia. lia.
Qed.

(** X16: the text of a total is produced exactly for totals below
    [100 * (2^1024 - 2^970)] in absolute value, and then ends in a
    point and two digits; from that bound on, the division raises
    [OverflowError]. *)
Theorem format_total_range (n : Z) :
  (Z.abs n < overflow_limit -> exists s, format_total n = Ok s /\ two_decimals s) /\
  (overflow_limit <= Z.abs n -> format_total n = Raise OverflowError).
Proof.
  assert (Hcases : n = 0 \/ 0 < Z.abs n) by lia.
  destruct Hcases as [-> | Hpos].
  - split.
    + intros _. exists "0.00". split; [reflexivity |].
      exact (format_total_two_decimals 0 "0.00" eq_refl).
    + intros H. exfalso. revert H. vm_compute. intros H. now apply H.
  - assert (E : (n =? 0) = false) by (apply Z.eqb_neq; lia).
    pose proof (overflow_test (Z.abs n) Hpos) as Htest.
    unfold format_total, true_div_100. rewrite E.
    destruct (nearest_double (Z.abs n) 100) as [m e]. rewrite Htest.
    split; intros H.
    + apply Z.leb_gt in H. rewrite H. cbn [bind]. eexists. split; [reflexivity |].
      apply format_2f_two_decimals.
    + apply Z.leb_le in H. now rewrite H.
Qed.

Lemma format_total_range_witness :
  (exists s, format_total (overflow_limit - 1) = Ok s /\ two_decimals s) /\
  format_total overflow_limit = Raise OverflowError.
Proof.
  split.
  - apply (proj1 (format_total_range (overflow_limit - 1))). vm_compute. reflexivity.
  - apply (proj2 (format_total_range overflow_limit)). vm_compute. discriminate.
Defined.

(** X17: a negative total is rendered as the positive one with a minus
    sign in front. *)
Theorem negative_total_is_signed (n : Z) :
  0 < n ->
  format_total (- n) = (s <- format_total n ;; Ok ("-" ++ s)).
Proof.
  intros Hn. unfold format_total, true_div_100.
  assert (E1 : (- n =? 0) = false) by (apply Z.eqb_neq; lia).
  assert (E2 : (n =? 0) = false) by (apply Z.eqb_neq; lia).
  assert (E3 : (- n <? 0) = true) by (apply Z.ltb_lt; lia).
  assert (E4 : (n <? 0) = false) by (apply Z.ltb_ge; lia).
  rewrite E1, E2, E3, E4, Z.abs_opp.
  destruct (nearest_double (Z.abs n) 100) as [m e].
  destruct ((0 <=? e) && (2 ^ 1024 <=? m * 2 ^ e)); reflexivity.
Qed.

Lemma negative_total_is_signed_witness :
  format_total (- 250) = Ok "-2.50".
Proof.
  apply (negative_total_is_signed 250). lia.
Defined.

(** ** The order of the units *)

Lemma insert_sorted_perm (u : Z * string) (l : list (Z * string)) :
  Permutation (insert_sorted u l) (u :: l).
Proof.
  induction l as [| u' l IH]; simpl; [reflexivity |].
  destruct (fst u <=? fst u'); [reflexivity |].
  rewrite IH. apply perm_swap.
Qed.

Lemma sorted_items_perm (m : list (Z * string)) : Permutation (sorted_items m) m.
Proof.
  induction m as [| u m IH]; simpl; [reflexivity |].
  rewrite insert_sorted_perm. now constructor.
Qed.

Lemma insert_sorted_ascending (u : Z * string) (l : list (Z * string)) :
  StronglySorted ascending l ->
  ~ In (fst u) (map fst l) ->
  StronglySorted ascending (insert_sorted u l).
Proof.
  induction 1 as [| u' l Hsorted IH Hall]; intros Hnew; simpl.
  - repeat constructor.
  - simpl in Hnew.
    destruct (fst u <=? fst u') eqn:E.
    + apply Z.leb_le in E.
      assert (Hlt : ascending u u') by (unfold ascending; lia).
      constructor; [now constructor |].
      constructor; [exact Hlt |].
      apply Forall_forall. intros x Hx.
      rewrite Forall_forall in Hall. specialize (Hall x Hx).
      unfold ascending in *. lia.
    + apply Z.leb_gt in E. constructor.
      * apply IH. intros Hin. apply Hnew. now right.
      * apply Forall_forall. intros x Hx.
        apply (Permutation_in _ (insert_sorted_perm u l)) in Hx.
        destruct Hx as [<- | Hx]; [exact E |].
        rewrite Forall_forall in Hall. now apply Hall.
Qed.

Lemma sorted_items_ascending (m : list (Z * string)) :
  NoDup (map fst m) -> StronglySorted ascending (sorted_items m).
Proof.
  induction m as [| u m IH]; simpl; intros Hnd; [constructor |].
  inversion Hnd as [| ? ? Hnot Hrest]; subst.
  apply insert_sorted_ascending; [now apply IH |].
  intros Hin. apply Hnot.
  apply (Permutation_in _ (Permutation_map fst (sorted_items_perm m))). exact Hin.
Qed.

(** X18: the units are visited in strictly ascending order of their
    codes, each loaded unit once: the list [main] iterates over is
    sorted and is a rearrangement of the loaded catalog. *)
Theorem units_are_visited_in_ascending_order (rows : list row) :
  StronglySorted ascending (sorted_items (load_units_csv rows)) /\
  Permutation (sorted_items (load_units_csv rows)) (load_units_csv rows).
Proof.
  split; [| apply sorted_items_perm].
  apply sorted_items_ascending. rewrite load_units_fold.
  apply add_units_nodup. constructor.
Qed.

(** ** The rows of a run *)

Section Rows.

Variable post : nat -> string -> Z -> string -> http.

Variable cookie : string.

Lemma pair_row (p : player) (st : run) (u : Z * string) :
  same_rows st 1 (process_pair post cookie p st u)
    (r <- row_of post cookie (S (step st)) p u ;; Ok [r]).
Proof.
  destruct u as [name_code unit_name]. unfold process_pair, row_of, same_rows.
  cbn [fst snd].
  destruct (usable (call_character_details post cookie (S (step st)) (intl_open_id p) name_code))
    as [[|] | e]; cbn [bind].
  - destruct (extract_stats_per_gear
                (call_character_details post cookie (S (step st)) (intl_open_id p) name_code))
      as [s | e]; cbn [bind out_rows step]; [| reflexivity].
    split; [reflexivity | lia].
  - cbn [out_rows step]. split; [reflexivity | lia].
  - reflexivity.
Qed.

Lemma rows_from_app (n : nat) (l1 l2 : list (player * (Z * string))) :
  rows_from post cookie n (l1 ++ l2)%list =
  (rs1 <- rows_from post cookie n l1 ;;
   rs2 <- rows_from post cookie (n + List.length l1) l2 ;;
   Ok (rs1 ++ rs2)%list).
Proof.
  revert n. induction l1 as [| [p u] l1 IH]; intros n; cbn [app rows_from List.length].
  - cbn [bind]. rewrite Nat.add_0_r.
    destruct (rows_from post cookie n l2); reflexivity.
  - destruct (row_of post cookie (S n) p u) as [r | e]; cbn [bind]; [| reflexivity].
    rewrite IH. replace (S n + List.length l1)%nat with (n + S (List.length l1))%nat by lia.
    destruct (rows_from post cookie (S n) l1) as [rs1 | e]; cbn [bind]; [| reflexivity].
    destruct (rows_from post cookie (n + S (List.length l1)) l2); reflexivity.
Qed.

Lemma inner_loop_rows (p : player) (us : list (Z * string)) (st : run) :
  same_rows st (List.length us)
    (for_each us (process_pair post cookie p) st)
    (rows_from post cookie (step st) (map (pair p) us)).
Proof.
  revert st. induction us as [| u us IH]; intros st; cbn [for_each map rows_from List.length].
  - unfold same_rows. split; [now rewrite app_nil_r | now rewrite Nat.add_0_r].
  - pose proof (pair_row p st u) as Hrow. unfold same_rows in Hrow.
    destruct (process_pair post cookie p st u) as [st1 | e];
      destruct (row_of post cookie (S (step st)) p u) as [r | e'];
      cbn [bind] in Hrow |- *; try contradiction.
    + destruct Hrow as [Hrows Hstep]. specialize (IH st1).
      rewrite Nat.add_1_r in Hstep. rewrite Hstep in IH. unfold same_rows in IH |- *.
      destruct (for_each us (process_pair post cookie p) st1) as [st2 | e];
        destruct (rows_from post cookie (S (step st)) (map (pair p) us)) as [rs | e'];
        cbn [bind]; try contradiction; [| exact IH].
      destruct IH as [IHrows IHstep]. split.
      * rewrite IHrows, Hrows, <- app_assoc. reflexivity.
      * lia.
    + exact Hrow.
Qed.

Lemma outer_loop_rows (ps : list player) (us : list (Z * string)) (st : run) :
  same_rows st (List.length ps * List.length us)
    (for_each ps (fun st p => for_each us (process_pair post cookie p) st) st)
    (rows_from post cookie (step st) (pairs ps us)).
Proof.
  revert st. induction ps as [| p ps IH]; intros st;
    cbn [for_each pairs flat_map rows_from List.length].
  - unfold same_rows. split; [now rewrite app_nil_r | now rewrite Nat.add_0_r].
  - fold (pairs ps us). rewrite rows_from_app, length_map.
    pose proof (inner_loop_rows p us st) as Hin. unfold same_rows in Hin.
    destruct (for_each us (process_pair post cookie p) st) as [st1 | e];
      destruct (rows_from post cookie (step st) (map (pair p) us)) as [rs1 | e'];
      cbn [bind] in Hin |- *; try contradiction; [| exact Hin].
    destruct Hin as [Hrows Hstep]. specialize (IH st1).
    rewrite Hstep in IH. unfold same_rows in IH |- *.
    destruct (for_each ps (fun st p => for_each us (process_pair post cookie p) st) st1)
      as [st2 | e];
      destruct (rows_from post cookie (step st + List.length us) (pairs ps us)) as [rs2 | e'];
      cbn [bind]; try contradiction; [| exact IH].
    destruct IH as [IHrows IHstep]. split.
    + rewrite IHrows, Hrows, <- app_assoc. reflexivity.
    + lia.
Qed.

Lemma main_rows (units players : list row) :
  main post cookie units players =
  (ps <- load_players_csv players ;;
   rows_from post cookie 0 (pairs ps (sorted_items (load_units_csv units)))).
Proof.
  unfold main. destruct (load_players_csv players) as [ps | e]; cbn [bind]; [| reflexivity].
  pose proof (outer_loop_rows ps (sorted_items (load_units_csv units)) start) as H.
  unfold same_rows in H. cbn [step start] in H.
  destruct (for_each ps _ start) as [st | e];
    destruct (rows_from post cookie 0 _) as [rs | e'];
    cbn [bind]; try contradiction.
  - destruct H as [H _]. now rewrite H.
  - now rewrite H.
Qed.

Lemma row_of_label (n : nat) (p : player) (u : Z * string) (r : out_row) :
  row_of post cookie n p u = Ok r ->
  (row_Player r, row_Unit r) = label_of (p, u).
Proof.
  unfold row_of. intros H. bind_inv H. destruct a.
  - bind_inv H. now injection H as <-.
  - now injection H as <-.
Qed.

Lemma rows_from_labels (n : nat) (l : list (player * (Z * string))) (rows : list out_row) :
  rows_from post cookie n l = Ok rows -> labels rows = map label_of l.
Proof.
  revert n rows. induction l as [| [p u] l IH]; intros n rows H; cbn [rows_from] in H.
  - now injection H as <-.
  - bind_inv H. bind_inv H. injection H as <-.
    cbn [labels map]. rewrite (row_of_label _ _ _ _ Ha). f_equal.
    exact (IH _ _ Ha0).
Qed.

Lemma pairs_length (ps : list player) (us : list (Z * string)) :
  List.length (pairs ps us) = (List.length ps * List.length us)%nat.
Proof.
  induction ps as [| p ps IH]; cbn [pairs flat_map List.length]; [reflexivity |].
  fold (pairs ps us). rewrite length_app, length_map, IH. lia.
Qed.

End Rows.

(** X19: the rows [main] would write are those of the pairs of players
    and units, players in the order of the registry and, for each
    player, units by ascending code; the row of the [k]-th pair is
    decided by the [k]-th request alone, and the first exception of a
    loader or of a pair is the result of the run. *)
Theorem main_is_rows_of_pairs (post : nat -> string -> Z -> string -> http)
  (cookie : string) (units players : list row) :
  main post cookie units players =
  (ps <- load_players_csv players ;;
   rows_from post cookie 0 (pairs ps (sorted_items (load_units_csv units)))).
Proof. exact (main_rows post cookie units players). Qed.

(** X20: when [main] completes, the table has exactly one row per
    pair of a loaded player and a loaded unit, and the player and unit
    cells of the rows follow the order of the pairs. *)
Theorem table_has_one_row_per_pair (post : nat -> string -> Z -> string -> http)
  (cookie : string) (units players : list row) (rows : list out_row) :
  main post cookie units players = Ok rows ->
  exists ps,
    load_players_csv players = Ok ps /\
    labels rows = map label_of (pairs ps (sorted_items (load_units_csv units))) /\
    List.length rows = (List.length ps * List.length (load_units_csv units))%nat.
Proof.
  intros H. rewrite main_rows in H. bind_inv H. rename a into ps.
  exists ps. split; [exact Ha |].
  pose proof (rows_from_labels post cookie _ _ _ H) as Hlabels.
  split; [exact Hlabels |].
  assert (Hlen : List.length (labels rows) = List.length rows) by apply length_map.
  rewrite <- Hlen, Hlabels, length_map, pairs_length.
  now rewrite (Permutation_length (sorted_items_perm (load_units_csv units))).
Qed.

Lemma table_has_one_row_per_pair_witness :
  exists ps,
    load_players_csv
      [ [("Player", Some "Alice"); ("UID", Some "29080-X1")];
        [("Player", Some "Bob"); ("UID", Some "29080-X2")] ] = Ok ps /\
    labels
      [ {| row_Player := "Alice"; row_Unit := "Alpha"; row_Attack := JNull;
           row_ElementalDamage := JNull; row_MaxAmmo := JNull |};
        {| row_Player := "Bob"; row_Unit := "Alpha"; row_Attack := JNull;
           row_ElementalDamage := JNull; row_MaxAmmo := JNull |} ] =
      map label_of
        (pairs ps
           (sorted_items
              (load_units_csv [Fixtures.good_unit_row; Fixtures.bad_unit_row]))) /\
    2%nat =
      (List.length ps *
       List.length (load_units_csv [Fixtures.good_unit_row; Fixtures.bad_unit_row]))%nat.
Proof.
  apply (table_has_one_row_per_pair Fixtures.unreachable "cookie"
           [Fixtures.good_unit_row; Fixtures.bad_unit_row]
           [ [("Player", Some "Alice"); ("UID", Some "29080-X1")];
             [("Player", Some "Bob"); ("UID", Some "29080-X2")] ]).
  reflexivity.
Defined.

(** X21: an exception of the extractor on one response ends the run:
    [main] raises it and returns no table, also not the rows of the
    pairs already done. *)
Theorem raising_extraction_discards_the_table
  (post : nat -> string -> Z -> string -> http) (cookie : string)
  (units players : list row) (ps : list player)
  (before after : list (player * (Z * string))) (p : player) (u : Z * string)
  (done : list out_row) (resp : json) (e : exn) :
  load_players_csv players = Ok ps ->
  pairs ps (sorted_items (load_units_csv units)) = (before ++ (p, u) :: after)%list ->
  rows_from post cookie 0 before = Ok done ->
  post (S (List.length before)) (intl_open_id p) (fst u) cookie = Body resp ->
  usable resp = Ok true ->
  extract_stats_per_gear resp = Raise e ->
  main post cookie units players = Raise e.
Proof.
  intros Hps Hpairs Hdone Hpost Husable Hextract.
  rewrite main_rows, Hps. cbn [bind]. rewrite Hpairs, rows_from_app, Hdone.
  cbn [bind rows_from Nat.add]. unfold row_of, call_character_details.
  rewrite Hpost, Husable. cbn [bind]. now rewrite Hextract.
Qed.

Lemma raising_extraction_discards_the_table_witness :
  main (fun _ _ name_code _ =>
          Body (if name_code =? 7 then Fixtures.one_slot else Fixtures.no_character))
       "cookie"
       [ Fixtures.good_unit_row;
         [("units/Name code", Some "9"); ("units/Name", Some "Gamma")] ]
       [ [("Player", Some "Alice"); ("UID", Some "29080-X1")] ] = Raise IndexError.
Proof.
  apply (raising_extraction_discards_the_table _ "cookie" _ _
           [Fixtures.alice] [(Fixtures.alice, (7, "Alpha"))] []
           Fixtures.alice (9, "Gamma")
           [ {| row_Player := "Alice"; row_Unit := "Alpha";
                row_Attack := JStr "10.00"; row_ElementalDamage := JStr "0.00";
                row_MaxAmmo := JStr "0.00" |} ]
           Fixtures.no_character IndexError); reflexivity.
Defined.

(** ** Requests and pauses *)

Lemma loop_count {A : Type} (f : run -> nat) (k : nat) (body : run -> A -> result run)
  (xs : list A) (st st' : run) :
  (forall s x s', body s x = Ok s' -> f s' = (f s + k)%nat) ->
  for_each xs body st = Ok st' ->
  f st' = (f st + k * List.length xs)%nat.
Proof.
  intros Hbody. revert st. induction xs as [| x xs IH]; intros st H.
  - injection H as <-. cbn [List.length]. lia.
  - cbn [for_each] in H. bind_inv H.
    rewrite (IH _ H), (Hbody _ _ _ Ha). cbn [List.length]. lia.
Qed.

Lemma pair_calls (post : nat -> string -> Z -> string -> http) (cookie : string)
  (p : player) (st st' : run) (u : Z * string) :
  process_pair post cookie p st u = Ok st' ->
  fetches st' = (fetches st + 1)%nat /\ pauses st' = (pauses st + 1)%nat.
Proof.
  destruct u as [name_code unit_name]. unfold process_pair, fetches, pauses.
  intros H. bind_inv H. destruct a.
  - bind_inv H. injection H as <-. cbn [calls].
    rewrite !filter_app, !length_app. cbn. lia.
  - injection H as <-. cbn [calls].
    rewrite !filter_app, !length_app. cbn. lia.
Qed.

(** X22: a run that completes has made exactly one request and one
    pause for every pair, whatever the requests returned. *)
Theorem every_pair_is_fetched_and_paused
  (post : nat -> string -> Z -> string -> http) (cookie : string)
  (ps : list player) (us : list (Z * string)) (st : run) :
  for_each ps (fun st p => for_each us (process_pair post cookie p) st) start = Ok st ->
  fetches st = (List.length ps * List.length us)%nat /\
  pauses st = (List.length ps * List.length us)%nat.
Proof.
  intros H.
  assert (Hcount : forall f : run -> nat,
             (forall p s s' u, process_pair post cookie p s u = Ok s' ->
                               f s' = (f s + 1)%nat) ->
             f st = (f start + List.length us * List.length ps)%nat).
  { intros f Hf.
    apply (loop_count f (List.length us)
             (fun st p => for_each us (process_pair post cookie p) st) ps start st);
      [| exact H].
    intros s p s' Hs.
    rewrite (loop_count f 1 (process_pair post cookie p) us s s'
               (fun s0 u s0' => Hf p s0 s0' u) Hs). lia. }
  split.
  - rewrite (Hcount fetches); [cbn; lia |].
    intros p s s' u Hs. exact (proj1 (pair_calls post cookie p s s' u Hs)).
  - rewrite (Hcount pauses); [cbn; lia |].
    intros p s s' u Hs. exact (proj2 (pair_calls post cookie p s s' u Hs)).
Qed.

Lemma every_pair_is_fetched_and_paused_witness :
  fetches
    {| out_rows := [failed_row Fixtures.alice "Alpha"; failed_row Fixtures.alice "Gamma"];
       step := 2;
       calls := [Fetched "X1" 7; Slept; Fetched "X1" 9; Slept] |} = 2%nat /\
  pauses
    {| out_rows := [failed_row Fixtures.alice "Alpha"; failed_row Fixtures.alice "Gamma"];
       step := 2;
       calls := [Fetched "X1" 7; Slept; Fetched "X1" 9; Slept] |} = 2%nat.
Proof.
  apply (every_pair_is_fetched_and_paused Fixtures.unreachable "cookie"
           [Fixtures.alice] [(7, "Alpha"); (9, "Gamma")]).
  reflexivity.
Defined.

(** ** The other outcomes of a pair *)

(** X23: a decoded body that is truthy but not an object (a non-empty
    array, a number, a text) has no [get]: the pair raises
    [AttributeError] and no row is appended. *)
Theorem non_object_body_raises (post : nat -> string -> Z -> string -> http)
  (cookie : string) (p : player) (st : run) (u : Z * string) (resp : json) :
  post (S (step st)) (intl_open_id p) (fst u) cookie = Body resp ->
  truthy resp = true ->
  is_dict resp = false ->
  process_pair post cookie p st u = Raise AttributeError.
Proof.
  intros Hpost Ht Hd. destruct u as [name_code unit_name]. cbn [fst] in Hpost.
  unfold process_pair, call_character_details, usable. rewrite Hpost, Ht.
  destruct resp; try discriminate; reflexivity.
Qed.

Lemma non_object_body_raises_witness :
  process_pair (fun _ _ _ _ => Body (JStr "Too many requests")) "cookie"
    Fixtures.alice start (7, "Alpha") = Raise AttributeError.
Proof.
  apply (non_object_body_raises _ "cookie" Fixtures.alice start (7, "Alpha")
           (JStr "Too many requests")); reflexivity.
Defined.

(** X24: when the body is an object whose ["code"] equals 0 and the
    extractor returns, the driver appends the row of the pair with the
    three extracted cells unchanged, after one request, one extraction
    and one pause. *)
Theorem successful_pair_appends_extracted_row
  (post : nat -> string -> Z -> string -> http) (cookie : string)
  (p : player) (st : run) (name_code : Z) (unit_name : string)
  (resp : json) (s : stats) :
  post (S (step st)) (intl_open_id p) name_code cookie = Body resp ->
  usable resp = Ok true ->
  extract_stats_per_gear resp = Ok s ->
  process_pair post cookie p st (name_code, unit_name) =
    Ok {| out_rows :=
            (out_rows st ++
             [ {| row_Player := Player p; row_Unit := unit_name;
                  row_Attack := Attack s;
                  row_ElementalDamage := ElementalDamage s;
                  row_MaxAmmo := MaxAmmo s |} ])%list;
          step := S (step st);
          calls := (calls st ++
                    [Fetched (intl_open_id p) name_code; Extracted resp; Slept])%list |}.
Proof.
  intros Hpost Hu Hs. unfold process_pair, call_character_details.
  rewrite Hpost, Hu. cbn [bind]. rewrite Hs. cbn [bind].
  now rewrite <- app_assoc.
Qed.

Lemma successful_pair_appends_extracted_row_witness :
  process_pair (fun _ _ _ _ => Body Fixtures.one_slot) "cookie" Fixtures.alice
    start (7, "Alpha") =
    Ok {| out_rows :=
            [ {| row_Player := "Alice"; row_Unit := "Alpha";
                 row_Attack := JStr "10.00";
                 row_ElementalDamage := JStr "0.00";
                 row_MaxAmmo := JStr "0.00" |} ];
          step := 1%nat;
          calls := [Fetched "X1" 7; Extracted Fixtures.one_slot; Slept] |}.
Proof.
  apply (successful_pair_appends_extracted_row _ "cookie" Fixtures.alice start
           7 "Alpha" Fixtures.one_slot
           {| Attack := JStr "10.00"; ElementalDamage := JStr "0.00";
              MaxAmmo := JStr "0.00" |}); reflexivity.
Defined.

(** The scenario of the specification, from the files to the table. *)
Example one_unit_one_player_run :
  main (fun _ _ _ _ => Body Fixtures.one_slot) "cookie"
    [Fixtures.good_unit_row]
    [ [("Player", Some "Alice"); ("UID", Some "29080-X1")] ] =
  Ok [ {| row_Player := "Alice"; row_Unit := "Alpha";
          row_Attack := JStr "10.00"; row_ElementalDamage := JStr "0.00";
          row_MaxAmmo := JStr "0.00" |} ].
Proof. reflexivity. Qed.
